(** * mmio: named bit fields of memory-mapped registers

    A shallow embedding of [mmio.c] / [mmio.h] (the MMIO class interface of
    a Linux driver) and the properties of its register-bank engine:
    the masked get / set algorithm, the sysfs store handler and the
    registration life cycle with its roll back. *)

From Stdlib Require Import ZArith Lia List String Ascii Bool.
From stdpp Require Import base option list gmap strings.

Local Open Scope Z_scope.

(** ** Machine integers

    C integers are carried as [Z]; every conversion to a narrower unsigned
    type is a reduction modulo a power of two, written out where the C code
    performs it. *)

Definition wrap (bits x : Z) : Z := x mod 2 ^ bits.

Definition u8 : Z -> Z := wrap 8.
Definition u16 : Z -> Z := wrap 16.
Definition u32 : Z -> Z := wrap 32.

(** [(int) x]: the low 32 bits, read as a two's complement number. *)
Definition s32 (x : Z) : Z :=
  let y := u32 x in if y <? 2 ^ 31 then y else y - 2 ^ 32.

(** [unsigned long] is 32 bits wide on the 32-bit kernels and 64 bits wide
    on the 64-bit ones; the code is embedded for both. *)
Inductive abi : Type := ILP32 | LP64.

Definition BITS_PER_LONG (a : abi) : Z :=
  match a with ILP32 => 32 | LP64 => 64 end.

Definition ulong (a : abi) : Z -> Z := wrap (BITS_PER_LONG a).

(** [errno] values of [<asm-generic/errno*.h>]. *)
Definition EPERM : Z := 1.
Definition EINVAL : Z := 22.
Definition EOVERFLOW : Z := 75.
Definition EIO : Z := 5.

(** ** Data model ([mmio.h]) *)

Definition MMIO_ENTRY_READ : Z := Z.shiftl 1 0.
Definition MMIO_ENTRY_WRITE : Z := Z.shiftl 1 1.
Definition MMIO_ENTRY_RW : Z := Z.lor MMIO_ENTRY_READ MMIO_ENTRY_WRITE.

(** The two sysfs callbacks an attribute can point to. *)
Inductive sysfs_op : Type := mmio_value_show_op | mmio_value_store_op.

(** [struct device_attribute], as far as the driver fills it in. *)
Record device_attribute : Type := mk_attr {
  attr_name : option string;
  attr_mode : Z;
  attr_show : option sysfs_op;
  attr_store : option sysfs_op
}.

(** [struct mmio_entry]. *)
Record mmio_entry : Type := mk_entry {
  entry_name : string;
  entry_mask : Z;               (* u32 *)
  entry_flags : Z;              (* unsigned long *)
  entry_attr : device_attribute
}.

(** [struct device *]: null, a live device, or an [ERR_PTR]. *)
Inductive device_ptr : Type :=
| NullDev
| Dev (id : Z)
| ErrPtr (err : Z).

(** [struct mmio_classdev].  The array [entries] and its length
    [num_entries] are one list; a null [entries] or [name] is [None], a
    null [base] is the address 0.  The list node and the semaphore live in
    the [world] below. *)
Record mmio_classdev : Type := mk_classdev {
  cdev_name : option string;
  cdev_size : Z;                (* u8 *)
  cdev_entries : option (list mmio_entry);
  cdev_offset : Z;              (* unsigned int *)
  cdev_base : Z;                (* void * *)
  cdev_dev : device_ptr
}.

(** ** The kernel around the driver *)

(** Lines the driver writes to the kernel log. *)
Inductive log_line : Type :=
| LogNullDeref
| LogSkipEntry (i : nat) (name : string)
| LogSysfsFailed (name : string)
| LogDevErr (name : string)
| LogRegistered (name : string) (base offset size : Z).

(** Everything the driver does to its environment, in program order. *)
Inductive event : Type :=
| EvPrintk (l : log_line)
| EvDownRead | EvUpRead | EvDownWrite | EvUpWrite
| EvRawRead (width addr : Z)
| EvRawWrite (width addr val : Z)
| EvDeviceCreate (parent : Z) (name : string)
| EvInitRwsem
| EvCreateFile (dev : Z) (name : option string) (ret : Z)
| EvRemoveFile (dev : Z) (name : option string)
| EvListLock | EvListUnlock.

(** The state the driver runs against: the memory-mapped register space
    (bus address to register content), the attribute files present in
    sysfs, the global [mmio_list], and the trace of events so far. *)
Record world : Type := mk_world {
  io : gmap Z Z;
  sysfs : list (Z * string);
  mmio_list : list mmio_classdev;
  trace : list event
}.

Definition emit (e : event) (w : world) : world :=
  mk_world (io w) (sysfs w) (mmio_list w) (trace w ++ [e]).

Definition printk (l : log_line) : world -> world := emit (EvPrintk l).

Definition down_read : world -> world := emit EvDownRead.
Definition up_read : world -> world := emit EvUpRead.
Definition down_write : world -> world := emit EvDownWrite.
Definition up_write : world -> world := emit EvUpWrite.

(** What the register at [addr] holds; an address never written reads 0. *)
Definition peek (w : world) (addr : Z) : Z := default 0 (io w !! addr).

Definition raw_read (width addr : Z) (w : world) : Z * world :=
  (wrap (8 * width) (peek w addr), emit (EvRawRead width addr) w).

Definition raw_write (width val addr : Z) (w : world) : world :=
  emit (EvRawWrite width addr val)
       (mk_world (<[addr := val]> (io w)) (sysfs w) (mmio_list w) (trace w)).

Definition __raw_readb : Z -> world -> Z * world := raw_read 1.
Definition __raw_readw : Z -> world -> Z * world := raw_read 2.
Definition __raw_readl : Z -> world -> Z * world := raw_read 4.

Definition __raw_writeb : Z -> Z -> world -> world := raw_write 1.
Definition __raw_writew : Z -> Z -> world -> world := raw_write 2.
Definition __raw_writel : Z -> Z -> world -> world := raw_write 4.

(** ** [mmio.c]: reading and writing a field *)

(** The first [switch (parent->size)] of both accessors. *)
Definition read_reg (parent : mmio_classdev) (w : world) : Z * world :=
  match cdev_size parent with
  | 2 => __raw_readw (cdev_base parent + cdev_offset parent) w
  | 4 => __raw_readl (cdev_base parent + cdev_offset parent) w
  | _ => __raw_readb (cdev_base parent + cdev_offset parent) w
  end.

(** The second [switch (parent->size)] of [mmio_set_value]. *)
Definition write_reg (parent : mmio_classdev) (reg : Z) (w : world) : world :=
  match cdev_size parent with
  | 2 => __raw_writew (u16 reg) (cdev_base parent + cdev_offset parent) w
  | 4 => __raw_writel reg (cdev_base parent + cdev_offset parent) w
  | _ => __raw_writeb (u8 reg) (cdev_base parent + cdev_offset parent) w
  end.

(** [while (0 == (mask & 1)) { mask >>= 1; reg >>= 1; }]
    One unit of fuel pays for one run of the body; [None] is a loop that
    is still running when the fuel is gone. *)
Fixpoint get_loop (fuel : nat) (mask reg : Z) : option (Z * Z) :=
  if Z.land mask 1 =? 0 then
    match fuel with
    | O => None
    | S fuel' => get_loop fuel' (Z.shiftr mask 1) (Z.shiftr reg 1)
    end
  else Some (mask, reg).

Definition mmio_get_value (fuel : nat)
    (parent : option mmio_classdev) (entry : option mmio_entry)
    (w : world) : option (Z * world) :=
  match parent, entry with
  | Some parent, Some entry =>
      let w := down_read w in
      let '(reg, w) := read_reg parent w in
      let w := up_read w in
      let reg := Z.land reg (entry_mask entry) in
      let mask := entry_mask entry in
      match get_loop fuel mask reg with
      | Some (_, reg) => Some (reg, w)
      | None => None
      end
  | _, _ => Some (0, printk LogNullDeref w)
  end.

(** [while (0 == (mask & 1)) { mask >>= 1; value <<= 1; }] on an
    [unsigned long value]. *)
Fixpoint set_loop (a : abi) (fuel : nat) (mask value : Z) : option (Z * Z) :=
  if Z.land mask 1 =? 0 then
    match fuel with
    | O => None
    | S fuel' => set_loop a fuel' (Z.shiftr mask 1) (ulong a (Z.shiftl value 1))
    end
  else Some (mask, value).

Definition mmio_set_value (a : abi) (fuel : nat)
    (parent : option mmio_classdev) (entry : option mmio_entry)
    (value : Z) (w : world) : option (Z * world) :=
  match parent, entry with
  | Some parent, Some entry =>
      let w := down_write w in
      let '(reg, w) := read_reg parent w in
      let shifted :=
        if negb (value =? 0) then
          match set_loop a fuel (entry_mask entry) value with
          | Some (_, value) => Some value
          | None => None
          end
        else Some value in
      match shifted with
      | None => None
      | Some value =>
          if negb (Z.land value (entry_mask entry) =? value) then
            Some (- EOVERFLOW, up_write w)
          else
            let reg := Z.land reg (u32 (Z.lnot (entry_mask entry))) in
            let reg := u32 (Z.lor reg value) in
            let w := write_reg parent reg w in
            Some (0, up_write w)
      end
  | _, _ => Some (- EINVAL, w)
  end.

(** ** [mmio.c]: the sysfs store handler *)

Definition char_code (c : ascii) : Z := Z.of_N (N_of_ascii c).

Definition is_digit (c : ascii) : bool :=
  (48 <=? char_code c) && (char_code c <=? 57).

Definition digit_val (c : ascii) : Z := char_code c - 48.

(** The digit loop of the kernel's [simple_strtoull] for base 10: the
    accumulator is an [unsigned long long] and wraps silently; [rv] counts
    the characters taken. *)
Fixpoint parse_integer (s : string) (res rv : Z) : Z * Z :=
  match s with
  | String c s' =>
      if is_digit c
      then parse_integer s' (wrap 64 (res * 10 + digit_val c)) (rv + 1)
      else (res, rv)
  | EmptyString => (res, rv)
  end.

(** [simple_strtoul(buf, &after, 10)]: the value, converted to
    [unsigned long], and [after - buf]. *)
Definition simple_strtoul (a : abi) (buf : string) : Z * Z :=
  let '(res, rv) := parse_integer buf 0 0 in (ulong a res, rv).

(** [buf[i]]; the buffer sysfs hands to a store handler carries a NUL
    right after its [size] bytes. *)
Definition char_at (buf : string) (i : Z) : ascii :=
  match String.get (Z.to_nat i) buf with
  | Some c => c
  | None => zero
  end.

(** [isspace] of the kernel's [_ctype] table. *)
Definition isspace (c : ascii) : bool :=
  ((9 <=? char_code c) && (char_code c <=? 13))
  || (char_code c =? 32) || (char_code c =? 160).

(** The search loop of both handlers: the first entry whose name is the
    attribute's. *)
Fixpoint find_entry (es : list mmio_entry) (name : option string)
  : option mmio_entry :=
  match es with
  | [] => None
  | e :: es' =>
      if bool_decide (Some (entry_name e) = name) then Some e
      else find_entry es' name
  end.

(** [mmio_value_store].  [mmio_cdev] is what [dev_get_drvdata(dev)]
    returns.  The C code compares the two name pointers; registration
    stores the entry's own [name] pointer in the attribute, so equal
    pointers are equal names here. *)
Definition mmio_value_store (a : abi) (fuel : nat)
    (mmio_cdev : mmio_classdev) (attr : device_attribute)
    (buf : string) (size : Z) (w : world) : option (Z * world) :=
  let ret := - EINVAL in
  let '(state, count) := simple_strtoul a buf in
  match find_entry (default [] (cdev_entries mmio_cdev)) (attr_name attr) with
  | None => Some (- EINVAL, w)
  | Some entry =>
      if Z.land (entry_flags entry) MMIO_ENTRY_WRITE =? 0 then
        Some (- EPERM, w)
      else
        let count := if isspace (char_at buf count) then count + 1 else count in
        if count =? size then
          let ret := count in
          match mmio_set_value a fuel (Some mmio_cdev) (Some entry) state w with
          | Some (r, w) => Some (if r <? 0 then r else ret, w)
          | None => None
          end
        else Some (ret, w)
  end.

(** ** [mmio.c]: registration *)

(** What [device_create] hands back: a device or an [ERR_PTR]. *)
Inductive created : Type :=
| Created (id : Z)
| NotCreated (err : Z).

(** The host's answers.  Creating an attribute file may depend on the
    files already present. *)
Record host : Type := mk_host {
  host_device_create : Z -> string -> created;
  host_create_file : list (Z * string) -> Z -> string -> Z
}.

Definition device_create (h : host) (parent : Z) (name : string) (w : world)
  : device_ptr * world :=
  (match host_device_create h parent name with
   | Created id => Dev id
   | NotCreated err => ErrPtr err
   end, emit (EvDeviceCreate parent name) w).

Definition IS_ERR (p : device_ptr) : bool :=
  match p with ErrPtr _ => true | _ => false end.

Definition PTR_ERR (p : device_ptr) : Z :=
  match p with ErrPtr err => err | _ => 0 end.

Definition dev_id (p : device_ptr) : Z :=
  match p with Dev id => id | _ => 0 end.

Definition device_create_file (h : host) (dev : Z) (attr : device_attribute)
    (w : world) : Z * world :=
  match attr_name attr with
  | Some n =>
      let ret := host_create_file h (sysfs w) dev n in
      (ret,
       emit (EvCreateFile dev (Some n) ret)
            (if ret =? 0
             then mk_world (io w) (sysfs w ++ [(dev, n)]) (mmio_list w) (trace w)
             else w))
  | None => (- EINVAL, emit (EvCreateFile dev None (- EINVAL)) w)
  end.

(** [device_remove_file] takes the file named by the attribute out of the
    device's directory; removing a file that is not there changes nothing.
    The kernel finds the file by the attribute's name: handed an attribute
    whose name is null it reads through the null pointer, and the call has
    no defined result, which is [None]. *)
Definition device_remove_file (dev : Z) (attr : device_attribute)
    (w : world) : option world :=
  match attr_name attr with
  | Some n =>
      Some (emit (EvRemoveFile dev (Some n))
                 (mk_world (io w)
                           (filter (fun f => f <> (dev, n)) (sysfs w))
                           (mmio_list w) (trace w)))
  | None => None
  end.

(** The four assignments that fill in [entries[i].attr]. *)
Definition populate_attr (e : mmio_entry) : mmio_entry :=
  mk_entry (entry_name e) (entry_mask e) (entry_flags e)
           (mk_attr (Some (entry_name e)) 420 (* 0644 *)
                    (Some mmio_value_show_op) (Some mmio_value_store_op)).

(** How the [for] loop over the entries ends: it ran to the end, or it
    left through [goto failed_unregister_dev_file] with [i] and [ret]. *)
Inductive loop_exit : Type :=
| RanToEnd
| Failed (i : nat) (ret : Z).

(** The [for] loop of [mmio_classdev_register] from index [i] on; [es] is
    [entries[i..]], returned with its attributes filled in. *)
Fixpoint create_files (h : host) (dev : Z) (i : nat) (es : list mmio_entry)
    (w : world) : loop_exit * list mmio_entry * world :=
  match es with
  | [] => (RanToEnd, [], w)
  | e :: es' =>
      if entry_mask e =? 0 then
        let w := printk (LogSkipEntry i (entry_name e)) w in
        let '(x, es'', w) := create_files h dev (S i) es' w in
        (x, e :: es'', w)
      else
        let e := populate_attr e in
        let '(ret, w) := device_create_file h dev (entry_attr e) w in
        if negb (ret =? 0) then
          let w := printk (LogSysfsFailed (entry_name e)) w in
          let w := printk (LogDevErr (entry_name e)) w in
          (Failed i ret, e :: es', w)
        else
          let '(x, es'', w) := create_files h dev (S i) es' w in
          (x, e :: es'', w)
  end.

(** [for (i--; i >= 0; i--) device_remove_file(dev, &entries[i].attr);]
    with [i] the value the loop was left with.  Every entry below [i] is
    handed over, the ones the loop above skipped included; the run ends
    without a result where one of the removals does. *)
Fixpoint remove_files (dev : Z) (es : list mmio_entry) (i : nat)
    (w : world) : option world :=
  match i with
  | O => Some w
  | S j =>
      match es !! j with
      | Some e =>
          match device_remove_file dev (entry_attr e) w with
          | Some w => remove_files dev es j w
          | None => None
          end
      | None => None
      end
  end.

Definition with_dev (c : mmio_classdev) (d : device_ptr) : mmio_classdev :=
  mk_classdev (cdev_name c) (cdev_size c) (cdev_entries c)
              (cdev_offset c) (cdev_base c) d.

Definition with_entries (c : mmio_classdev) (es : list mmio_entry)
  : mmio_classdev :=
  mk_classdev (cdev_name c) (cdev_size c) (Some es)
              (cdev_offset c) (cdev_base c) (cdev_dev c).

Definition list_add_tail (c : mmio_classdev) (w : world) : world :=
  mk_world (io w) (sysfs w) (mmio_list w ++ [c]) (trace w).

(** [((int) mmio_cdev->base + mmio_cdev->offset) & m] *)
Definition addr_bits (c : mmio_classdev) (m : Z) : Z :=
  Z.land (u32 (s32 (cdev_base c) + cdev_offset c)) m.

(** [mmio_classdev_register]: the return value, the bank as the call
    leaves it ([dev] and the attributes are assigned in place), and the
    world; [None] where the roll back has no result. *)
Definition mmio_classdev_register (h : host) (parent : Z)
    (mmio_cdev : mmio_classdev) (w : world)
  : option (Z * mmio_classdev * world) :=
  match cdev_entries mmio_cdev, cdev_name mmio_cdev with
  | Some entries, Some name =>
      if cdev_base mmio_cdev =? 0 then Some (- EINVAL, mmio_cdev, w)
      else if negb (cdev_size mmio_cdev =? 1) && negb (cdev_size mmio_cdev =? 2)
              && negb (cdev_size mmio_cdev =? 4)
      then Some (- EINVAL, mmio_cdev, w)
      else if (cdev_size mmio_cdev =? 2) && negb (addr_bits mmio_cdev 1 =? 0)
      then Some (- EINVAL, mmio_cdev, w)
      else if (cdev_size mmio_cdev =? 4) && negb (addr_bits mmio_cdev 3 =? 0)
      then Some (- EINVAL, mmio_cdev, w)
      else
        let '(dev, w) := device_create h parent name w in
        let mmio_cdev := with_dev mmio_cdev dev in
        if IS_ERR dev then Some (PTR_ERR dev, mmio_cdev, w)
        else
          let w := emit EvInitRwsem w in
          let '(x, entries, w) := create_files h (dev_id dev) O entries w in
          let mmio_cdev := with_entries mmio_cdev entries in
          match x with
          | RanToEnd =>
              let w := emit EvListLock w in
              let w := list_add_tail mmio_cdev w in
              let w := emit EvListUnlock w in
              let w := printk (LogRegistered name (cdev_base mmio_cdev)
                                 (cdev_offset mmio_cdev) (cdev_size mmio_cdev)) w in
              Some (0, mmio_cdev, w)
          | Failed i ret =>
              match remove_files (dev_id dev) entries i w with
              | Some w => Some (ret, mmio_cdev, w)
              | None => None
              end
          end
  | _, _ => Some (- EINVAL, mmio_cdev, w)
  end.

(** ** [mmio.c]: the sysfs show handler *)

(** The character of the decimal digit [d]. *)
Definition digit_char (d : Z) : ascii := ascii_of_N (Z.to_N (48 + d)).

(** The number loop of the kernel's [vsprintf]: digits are taken off the
    low end, so each one lands in front of those already there.  [fuel]
    bounds the number of digits. *)
Fixpoint put_dec (fuel : nat) (n : Z) (acc : string) : string :=
  match fuel with
  | O => acc
  | S fuel' =>
      let acc := String (digit_char (n mod 10)) acc in
      if n / 10 =? 0 then acc else put_dec fuel' (n / 10) acc
  end.

(** What [sprintf(buf, "%u\n", value)] leaves in [buf]: an [unsigned int]
    has ten decimal digits at most.  [sprintf] returns the length. *)
Definition sprintf_u_nl (value : Z) : string :=
  put_dec 10 value (String "010" EmptyString).

(** [mmio_value_show]: the return value, the buffer as the call leaves it,
    and the world.  [mmio_cdev] is what [dev_get_drvdata(dev)] returns. *)
Definition mmio_value_show (fuel : nat)
    (mmio_cdev : mmio_classdev) (attr : device_attribute)
    (buf : string) (w : world) : option (Z * string * world) :=
  match find_entry (default [] (cdev_entries mmio_cdev)) (attr_name attr) with
  | None => Some (- EINVAL, buf, w)
  | Some entry =>
      if Z.land (entry_flags entry) MMIO_ENTRY_READ =? 0 then
        Some (- EPERM, buf, w)
      else
        match mmio_get_value fuel (Some mmio_cdev) (Some entry) w with
        | Some (value, w) =>
            let buf := sprintf_u_nl value in
            Some (Z.of_nat (String.length buf), buf, w)
        | None => None
        end
  end.

(** ** The kernel's side of an attribute file *)

(** [dev_attr_show] and [dev_attr_store] of drivers/base/core.c: a read or
    a write of the file of a device attribute calls the attribute's [show]
    or [store], and fails with [-EIO] where the attribute has none.
    [drvdata] is what the driver finds with [dev_get_drvdata]: the bank the
    device was created for.  A handler of the other signature cannot be
    called; C's types keep it out of the slot. *)
Definition dev_attr_show (fuel : nat) (drvdata : mmio_classdev)
    (attr : device_attribute) (buf : string) (w : world)
  : option (Z * string * world) :=
  match attr_show attr with
  | Some mmio_value_show_op => mmio_value_show fuel drvdata attr buf w
  | Some mmio_value_store_op => None
  | None => Some (- EIO, buf, w)
  end.

Definition dev_attr_store (a : abi) (fuel : nat) (drvdata : mmio_classdev)
    (attr : device_attribute) (buf : string) (size : Z) (w : world)
  : option (Z * world) :=
  match attr_store attr with
  | Some mmio_value_store_op => mmio_value_store a fuel drvdata attr buf size w
  | Some mmio_value_show_op => None
  | None => Some (- EIO, w)
  end.

(** ** [mmio.c]: unregistration *)

#[global] Instance sysfs_op_eq_dec : EqDecision sysfs_op.
Proof. solve_decision. Defined.

#[global] Instance device_attribute_eq_dec : EqDecision device_attribute.
Proof. solve_decision. Defined.

#[global] Instance mmio_entry_eq_dec : EqDecision mmio_entry.
Proof. solve_decision. Defined.

#[global] Instance device_ptr_eq_dec : EqDecision device_ptr.
Proof. solve_decision. Defined.

#[global] Instance mmio_classdev_eq_dec : EqDecision mmio_classdev.
Proof. solve_decision. Defined.

(** The first [for] loop of [mmio_classdev_unregister]: every entry in
    turn, those with a zero mask included. *)
Fixpoint remove_all_files (dev : Z) (es : list mmio_entry) (w : world)
  : option world :=
  match es with
  | [] => Some w
  | e :: es' =>
      match device_remove_file dev (entry_attr e) w with
      | Some w => remove_all_files dev es' w
      | None => None
      end
  end.

(** [device_unregister(dev)]: the device goes, and with it its directory
    and whatever attribute files are still in it.  The call has no event of
    its own; its effect shows in [sysfs]. *)
Definition device_unregister (dev : Z) (w : world) : world :=
  mk_world (io w) (filter (fun f => fst f <> dev) (sysfs w))
           (mmio_list w) (trace w).

(** [list_del(&mmio_cdev->node)]: the bank's node leaves the list.  A bank
    stands for its node.  The macro writes through the [next] and [prev] of
    the node: on a node that was never linked into the list the call has no
    defined result. *)
Definition list_del (c : mmio_classdev) (w : world) : option world :=
  if decide (c ∈ mmio_list w)
  then Some (mk_world (io w) (sysfs w)
                      (filter (fun x => x <> c) (mmio_list w)) (trace w))
  else None.

(** [mmio_classdev_unregister].  The code uses [mmio_cdev->dev] unchecked:
    on a bank whose [dev] is no live device the call has no defined
    result, which is [None]; so it is where a removal or [list_del] has
    none. *)
Definition mmio_classdev_unregister (mmio_cdev : mmio_classdev) (w : world)
  : option world :=
  match cdev_dev mmio_cdev with
  | Dev dev =>
      match remove_all_files dev (default [] (cdev_entries mmio_cdev)) w with
      | Some w =>
          let w := device_unregister dev w in
          let w := emit EvListLock w in
          match list_del mmio_cdev w with
          | Some w => Some (emit EvListUnlock w)
          | None => None
          end
      | None => None
      end
  | _ => None
  end.

(** ** Notions the properties are stated with *)

(** The number of zero bits below the lowest set bit. *)
Fixpoint low_zeros (p : positive) : Z :=
  match p with
  | xO q => Z.succ (low_zeros q)
  | _ => 0
  end.

Definition trailing_zero_count (m : Z) : Z :=
  match m with
  | Zpos p => low_zeros p
  | _ => 0
  end.

(** The bytes one access to the bank's register moves: what the
    [switch (parent->size)] selects. *)
Definition access_width (parent : mmio_classdev) : Z :=
  match cdev_size parent with
  | 2 => 2
  | 4 => 4
  | _ => 1
  end.

Definition reg_addr (parent : mmio_classdev) : Z :=
  cdev_base parent + cdev_offset parent.

(** The raw register value: what one read of the bank's register returns. *)
Definition register_value (parent : mmio_classdev) (w : world) : Z :=
  fst (read_reg parent w).

(** The events that are accesses to the hardware. *)
Definition is_hw_access (e : event) : bool :=
  match e with
  | EvRawRead _ _ | EvRawWrite _ _ _ => true
  | _ => false
  end.

(** The values written to the hardware, oldest first. *)
Definition written_values (t : list event) : list Z :=
  omap (fun e => match e with EvRawWrite _ _ v => Some v | _ => None end) t.

(** Does a fuel-bounded run return at all, given enough fuel? *)
Definition returns {A : Type} (run : nat -> option A) : Prop :=
  exists fuel r, run fuel = Some r.

(** The run of decimal digits an input starts with, and its value as a
    natural number of any size. *)
Fixpoint digits_prefix (s : string) : string :=
  match s with
  | String c s' => if is_digit c then String c (digits_prefix s') else EmptyString
  | EmptyString => EmptyString
  end.

Fixpoint decimal_from (acc : Z) (s : string) : Z :=
  match s with
  | String c s' => decimal_from (acc * 10 + digit_val c) s'
  | EmptyString => acc
  end.

Definition decimal_value (s : string) : Z := decimal_from 0 s.

Fixpoint all_digits (s : string) : bool :=
  match s with
  | String c s' => is_digit c && all_digits s'
  | EmptyString => true
  end.

(** The length the store handler has consumed when it compares with
    [size]: the digits, and one white-space character if one follows. *)
Definition consumed_length (buf : string) : Z :=
  let n := Z.of_nat (String.length (digits_prefix buf)) in
  if isspace (char_at buf n) then n + 1 else n.

(** Decimal digits followed by at most one white-space character. *)
Definition well_formed_input (buf : string) : Prop :=
  exists d t : string,
    buf = (d ++ t)%string /\ all_digits d = true
    /\ (t = EmptyString
        \/ exists c, isspace c = true /\ t = String c EmptyString).

(** What the store handler makes of the result of [mmio_set_value]. *)
Definition store_result (count : Z) (r : option (Z * world))
  : option (Z * world) :=
  match r with
  | Some (r, w) => Some (if r <? 0 then r else count, w)
  | None => None
  end.

(** What a read of a field's access point is to do: with the read
    permission checked first, render what [mmio_get_value] returns for the
    field as decimal text. *)
Definition read_handler_contract (fuel : nat) (bank : mmio_classdev)
    (entry : mmio_entry) (buf : string) (w : world)
  : option (Z * string * world) :=
  if Z.land (entry_flags entry) MMIO_ENTRY_READ =? 0 then Some (- EPERM, buf, w)
  else
    match mmio_get_value fuel (Some bank) (Some entry) w with
    | Some (value, w) =>
        Some (Z.of_nat (String.length (sprintf_u_nl value)), sprintf_u_nl value, w)
    | None => None
    end.

(** What a write to a field's access point is to do: with the write
    permission checked first, hand the number the input starts with to
    [mmio_set_value] for the field when the whole input was consumed, and
    refuse the input otherwise. *)
Definition write_handler_contract (a : abi) (fuel : nat) (bank : mmio_classdev)
    (entry : mmio_entry) (buf : string) (size : Z) (w : world)
  : option (Z * world) :=
  if Z.land (entry_flags entry) MMIO_ENTRY_WRITE =? 0 then Some (- EPERM, w)
  else if consumed_length buf =? size then
    store_result (consumed_length buf)
      (mmio_set_value a fuel (Some bank) (Some entry)
         (ulong a (decimal_value (digits_prefix buf))) w)
  else Some (- EINVAL, w).

(** The attribute files a bank with the entries [es] has under [dev]: one
    for each entry with a non-zero mask, in order. *)
Definition exposures (dev : Z) (es : list mmio_entry) : list (Z * string) :=
  (fun e => (dev, entry_name e)) <$> filter (fun e => entry_mask e <> 0) es.

(** An entry once the registration loop has passed it. *)
Definition passed (e : mmio_entry) : mmio_entry :=
  if entry_mask e =? 0 then e else populate_attr e.

(** What the registration loop emits on entries that are all bound or
    skipped, the first of them having index [i]. *)
Fixpoint loop_events (dev : Z) (i : nat) (es : list mmio_entry) : list event :=
  match es with
  | [] => []
  | e :: es' =>
      (if entry_mask e =? 0
       then EvPrintk (LogSkipEntry i (entry_name e))
       else EvCreateFile dev (Some (entry_name e)) 0)
      :: loop_events dev (S i) es'
  end.

(** The removals of a roll back over the entries [es], first to last. *)
Definition removal_events (dev : Z) (es : list mmio_entry) : list event :=
  (fun e => EvRemoveFile dev (attr_name (entry_attr e))) <$> es.

(** The four checks at the head of [mmio_classdev_register] pass. *)
Definition acceptable (c : mmio_classdev) : Prop :=
  cdev_base c <> 0
  /\ (cdev_size c = 1 \/ cdev_size c = 2 \/ cdev_size c = 4)
  /\ (cdev_size c = 2 -> (cdev_base c + cdev_offset c) mod 2 = 0)
  /\ (cdev_size c = 4 -> (cdev_base c + cdev_offset c) mod 4 = 0).

(** How the state stands when the binding loop is left, whatever the host
    answers. *)
Definition loop_left (dev : Z) (i : nat) (es : list mmio_entry) (w : world)
    (x : loop_exit) (es' : list mmio_entry) (w' : world) : Prop :=
  io w' = io w /\ mmio_list w' = mmio_list w
  /\ filter is_hw_access (trace w') = filter is_hw_access (trace w)
  /\ match x with
     | RanToEnd =>
         sysfs w' = sysfs w ++ exposures dev es /\ es' = passed <$> es
     | Failed j ret =>
         ret <> 0
         /\ exists k, j = (i + k)%nat /\ (k < length es)%nat
            /\ sysfs w' = sysfs w ++ exposures dev (take k es)
            /\ es' = (passed <$> take (S k) es) ++ drop (S k) es
     end.

(** ** Sample data for the examples *)

Definition empty_world : world := mk_world ∅ [] [] [].

(** A world whose register at [addr] holds [v]. *)
Definition world_with (addr v : Z) : world := mk_world {[ addr := v ]} [] [] [].

Definition no_attr : device_attribute := mk_attr None 0 None None.

Definition field (name : string) (m : Z) : mmio_entry :=
  mk_entry name m MMIO_ENTRY_RW no_attr.

Definition read_only_field (name : string) (m : Z) : mmio_entry :=
  mk_entry name m MMIO_ENTRY_READ no_attr.

Definition sample_bank (size : Z) (es : list mmio_entry) : mmio_classdev :=
  mk_classdev (Some "ctrl"%string) size (Some es) 0 4096 NullDev.

(** A host on which every creation succeeds. *)
Definition willing_host : host :=
  mk_host (fun _ _ => Created 7) (fun _ _ _ => 0).

(** A host that refuses the attribute file called [bad] with [err]. *)
Definition refusing_host (bad : string) (err : Z) : host :=
  mk_host (fun _ _ => Created 7)
          (fun _ _ n => if bool_decide (n = bad) then err else 0).

(** * Properties *)

(** ** Bits and the two normalisation loops *)

Lemma testbit_wrap (n x i : Z) :
  0 <= n -> Z.testbit (wrap n x) i = (i <? n) && Z.testbit x i.
Proof. intros Hn. unfold wrap. now apply Z.testbit_mod_pow2. Qed.

Lemma wrap_range (n x : Z) : 0 <= n -> 0 <= wrap n x < 2 ^ n.
Proof. intros Hn. unfold wrap. apply Z.mod_pos_bound. lia. Qed.

Lemma wrap_small (n x : Z) : 0 <= x < 2 ^ n -> wrap n x = x.
Proof. intros Hx. unfold wrap. now apply Z.mod_small. Qed.

Lemma testbit_high (n x i : Z) :
  0 <= n -> 0 <= x < 2 ^ n -> n <= i -> Z.testbit x i = false.
Proof.
  intros Hn Hx Hi. rewrite <- (wrap_small n x Hx), testbit_wrap by lia.
  destruct (Z.ltb_spec i n); [lia | reflexivity].
Qed.

Lemma BITS_PER_LONG_cases (a : abi) : BITS_PER_LONG a = 32 \/ BITS_PER_LONG a = 64.
Proof. destruct a; [left | right]; reflexivity. Qed.

Lemma low_zeros_nonneg (p : positive) : 0 <= low_zeros p.
Proof. induction p; simpl; lia. Qed.

Lemma low_zeros_pow (p : positive) : 2 ^ low_zeros p <= Zpos p.
Proof.
  induction p as [p IH | p IH |]; simpl low_zeros; try (simpl; lia).
  rewrite Z.pow_succ_r by apply low_zeros_nonneg. lia.
Qed.

Lemma trailing_zero_count_nonneg (m : Z) : 0 <= trailing_zero_count m.
Proof. destruct m; simpl; try lia. apply low_zeros_nonneg. Qed.

Lemma trailing_zero_count_pow (m : Z) : 0 < m -> 2 ^ trailing_zero_count m <= m.
Proof. destruct m; simpl; try lia. intros _. apply low_zeros_pow. Qed.

Lemma trailing_zero_count_lt (m k : Z) :
  0 <= k -> 0 < m < 2 ^ k -> trailing_zero_count m < k.
Proof.
  intros Hk Hm. pose proof (trailing_zero_count_pow m (proj1 Hm)) as Hp.
  pose proof (trailing_zero_count_nonneg m) as Hn.
  apply (Z.pow_lt_mono_r_iff 2); lia.
Qed.

Lemma get_loop_unfold (fuel : nat) (mask reg : Z) :
  get_loop fuel mask reg =
  if Z.land mask 1 =? 0 then
    match fuel with
    | O => None
    | S fuel' => get_loop fuel' (mask ≫ 1) (reg ≫ 1)
    end
  else Some (mask, reg).
Proof. destruct fuel; reflexivity. Qed.

Lemma set_loop_unfold (a : abi) (fuel : nat) (mask value : Z) :
  set_loop a fuel mask value =
  if Z.land mask 1 =? 0 then
    match fuel with
    | O => None
    | S fuel' => set_loop a fuel' (mask ≫ 1) (ulong a (value ≪ 1))
    end
  else Some (mask, value).
Proof. destruct fuel; reflexivity. Qed.

(** On a non-zero mask the loop of [mmio_get_value] runs once per trailing
    zero bit and then stops. *)
Lemma get_loop_pos (p : positive) (fuel : nat) (reg : Z) :
  low_zeros p <= Z.of_nat fuel ->
  get_loop fuel (Zpos p) reg = Some (Zpos p ≫ low_zeros p, reg ≫ low_zeros p).
Proof.
  revert fuel reg.
  induction p as [p IH | p IH |]; intros fuel reg Hfuel;
    rewrite get_loop_unfold; simpl low_zeros in *.
  - now rewrite !Z.shiftr_0_r.
  - pose proof (low_zeros_nonneg p) as Hp.
    change (Z.land (Zpos p~0) 1 =? 0) with true. cbv iota.
    destruct fuel as [| fuel]; [lia |].
    change (Zpos p~0 ≫ 1) with (Zpos p).
    rewrite IH by lia.
    rewrite !Z.shiftr_shiftr by lia.
    change (Zpos p) with (Zpos p~0 ≫ 1) at 1.
    rewrite Z.shiftr_shiftr by lia.
    now rewrite <- Z.add_1_l.
  - now rewrite !Z.shiftr_0_r.
Qed.

Lemma get_loop_nonzero (fuel : nat) (mask reg : Z) :
  0 < mask < 2 ^ 32 -> (31 <= fuel)%nat ->
  get_loop fuel mask reg =
  Some (mask ≫ trailing_zero_count mask, reg ≫ trailing_zero_count mask).
Proof.
  intros Hm Hfuel.
  pose proof (trailing_zero_count_lt mask 32 ltac:(lia) Hm) as Hlt.
  destruct mask as [| p | p]; try lia.
  apply get_loop_pos. simpl in Hlt. lia.
Qed.

(** On the mask 0 it never stops. *)
Lemma get_loop_zero (fuel : nat) (reg : Z) : get_loop fuel 0 reg = None.
Proof.
  revert reg. induction fuel as [| fuel IH]; intros reg; [reflexivity |].
  rewrite get_loop_unfold. change (Z.land 0 1 =? 0) with true. cbv iota.
  rewrite Z.shiftr_0_l. apply IH.
Qed.

Lemma ulong_shiftl_step (a : abi) (v n : Z) :
  0 <= n -> ulong a (ulong a (v ≪ 1) ≪ n) = ulong a (v ≪ (1 + n)).
Proof.
  intros Hn. unfold ulong, wrap.
  rewrite !Z.shiftl_mul_pow2 by lia.
  rewrite Z.mul_mod_idemp_l by (destruct a; simpl; lia).
  rewrite Z.pow_add_r by lia. f_equal. ring.
Qed.

(** The loop of [mmio_set_value] shifts the value up by as many places,
    dropping what leaves the top of [unsigned long]. *)
Lemma set_loop_pos (a : abi) (p : positive) (fuel : nat) (value : Z) :
  0 <= value < 2 ^ BITS_PER_LONG a ->
  low_zeros p <= Z.of_nat fuel ->
  set_loop a fuel (Zpos p) value =
  Some (Zpos p ≫ low_zeros p, ulong a (value ≪ low_zeros p)).
Proof.
  revert fuel value.
  induction p as [p IH | p IH |]; intros fuel value Hv Hfuel;
    rewrite set_loop_unfold; simpl low_zeros in *.
  - simpl. rewrite Z.shiftl_0_r. unfold ulong.
    rewrite wrap_small by assumption. reflexivity.
  - pose proof (low_zeros_nonneg p) as Hp.
    change (Z.land (Zpos p~0) 1 =? 0) with true. cbv iota.
    destruct fuel as [| fuel]; [lia |].
    change (Zpos p~0 ≫ 1) with (Zpos p).
    rewrite IH; [| apply wrap_range; destruct a; simpl; lia | lia].
    rewrite ulong_shiftl_step by lia.
    change (Zpos p) with (Zpos p~0 ≫ 1) at 1.
    rewrite Z.shiftr_shiftr by lia.
    now rewrite <- !Z.add_1_l.
  - simpl. rewrite Z.shiftl_0_r. unfold ulong.
    rewrite wrap_small by assumption. reflexivity.
Qed.

Lemma set_loop_nonzero (a : abi) (fuel : nat) (mask value : Z) :
  0 < mask < 2 ^ 32 -> 0 <= value < 2 ^ BITS_PER_LONG a -> (31 <= fuel)%nat ->
  set_loop a fuel mask value =
  Some (mask ≫ trailing_zero_count mask,
        ulong a (value ≪ trailing_zero_count mask)).
Proof.
  intros Hm Hv Hfuel.
  pose proof (trailing_zero_count_lt mask 32 ltac:(lia) Hm) as Hlt.
  destruct mask as [| p | p]; try lia.
  apply set_loop_pos; [assumption |]. simpl in Hlt. lia.
Qed.

Lemma set_loop_zero (a : abi) (fuel : nat) (value : Z) :
  set_loop a fuel 0 value = None.
Proof.
  revert value. induction fuel as [| fuel IH]; intros value; [reflexivity |].
  rewrite set_loop_unfold. change (Z.land 0 1 =? 0) with true. cbv iota.
  rewrite Z.shiftr_0_l. apply IH.
Qed.

(** More fuel never changes a result: what a loop returns is what the C
    loop computes. *)
Lemma get_loop_mono (fuel fuel' : nat) (mask reg : Z) (r : Z * Z) :
  get_loop fuel mask reg = Some r -> (fuel <= fuel')%nat ->
  get_loop fuel' mask reg = Some r.
Proof.
  revert fuel' mask reg.
  induction fuel as [| fuel IH]; intros fuel' mask reg Hrun Hle;
    rewrite get_loop_unfold in Hrun |- *;
    destruct (Z.land mask 1 =? 0); try assumption; try discriminate.
  destruct fuel' as [| fuel']; [lia |]. apply IH; [assumption | lia].
Qed.

Lemma set_loop_mono (a : abi) (fuel fuel' : nat) (mask value : Z) (r : Z * Z) :
  set_loop a fuel mask value = Some r -> (fuel <= fuel')%nat ->
  set_loop a fuel' mask value = Some r.
Proof.
  revert fuel' mask value.
  induction fuel as [| fuel IH]; intros fuel' mask value Hrun Hle;
    rewrite set_loop_unfold in Hrun |- *;
    destruct (Z.land mask 1 =? 0); try assumption; try discriminate.
  destruct fuel' as [| fuel']; [lia |]. apply IH; [assumption | lia].
Qed.

(** ** The raw accessors *)

Lemma access_width_cases (parent : mmio_classdev) :
  access_width parent = 1 \/ access_width parent = 2 \/ access_width parent = 4.
Proof. unfold access_width. repeat case_match; auto. Qed.

(** Settle an arithmetic goal for each of the three access widths. *)
Ltac width_cases parent :=
  destruct (access_width_cases parent) as [-> | [-> | ->]]; lia.

Lemma read_reg_eq (parent : mmio_classdev) (w : world) :
  read_reg parent w =
  (wrap (8 * access_width parent) (peek w (reg_addr parent)),
   emit (EvRawRead (access_width parent) (reg_addr parent)) w).
Proof. unfold read_reg, access_width. repeat case_match; reflexivity. Qed.

Lemma write_reg_eq (parent : mmio_classdev) (reg : Z) (w : world) :
  write_reg parent (u32 reg) w =
  raw_write (access_width parent)
            (wrap (8 * access_width parent) (u32 reg)) (reg_addr parent) w.
Proof.
  unfold write_reg, access_width.
  repeat case_match; try reflexivity.
  unfold __raw_writel. f_equal. change (8 * 4) with 32.
  symmetry. apply wrap_small. apply wrap_range. lia.
Qed.

Lemma register_value_eq (parent : mmio_classdev) (w : world) :
  register_value parent w =
  wrap (8 * access_width parent) (peek w (reg_addr parent)).
Proof. unfold register_value. now rewrite read_reg_eq. Qed.

Lemma peek_emit (e : event) (w : world) (addr : Z) : peek (emit e w) addr = peek w addr.
Proof. reflexivity. Qed.

Lemma peek_raw_write (width val addr : Z) (w : world) :
  peek (raw_write width val addr w) addr = val.
Proof. unfold peek, raw_write. simpl. now rewrite lookup_insert_eq. Qed.

Lemma register_value_emit (parent : mmio_classdev) (e : event) (w : world) :
  register_value parent (emit e w) = register_value parent w.
Proof. now rewrite !register_value_eq. Qed.

Lemma register_value_range (parent : mmio_classdev) (w : world) :
  0 <= register_value parent w < 2 ^ (8 * access_width parent).
Proof.
  rewrite register_value_eq. apply wrap_range.
  width_cases parent.
Qed.

(** The conversions to [u32] inside the read-modify-write vanish once the
    result is cut to the access width. *)
Lemma modify_trunc (k old m sh : Z) :
  0 <= k <= 32 ->
  wrap k (u32 (Z.lor (Z.land old (u32 (Z.lnot m))) sh)) =
  wrap k (Z.lor (Z.land old (Z.lnot m)) sh).
Proof.
  intros Hk. apply Z.bits_inj'. intros i Hi. unfold u32.
  rewrite !testbit_wrap, !Z.lor_spec, !Z.land_spec, testbit_wrap by lia.
  destruct (Z.ltb_spec i k) as [Hlt | Hge]; [| reflexivity].
  destruct (Z.ltb_spec i 32); [reflexivity | lia].
Qed.

(** ** What the two accessors compute *)

Lemma mmio_get_value_spec (fuel : nat) (parent : mmio_classdev)
    (entry : mmio_entry) (w : world) :
  0 < entry_mask entry < 2 ^ 32 -> (31 <= fuel)%nat ->
  mmio_get_value fuel (Some parent) (Some entry) w =
  Some (Z.land (register_value parent w) (entry_mask entry)
          ≫ trailing_zero_count (entry_mask entry),
        up_read (emit (EvRawRead (access_width parent) (reg_addr parent))
                      (down_read w))).
Proof.
  intros Hm Hfuel. unfold mmio_get_value.
  rewrite read_reg_eq, get_loop_nonzero by assumption.
  now rewrite register_value_eq.
Qed.

Lemma mmio_set_value_spec (a : abi) (fuel : nat) (parent : mmio_classdev)
    (entry : mmio_entry) (v : Z) (w : world) :
  0 <= entry_mask entry < 2 ^ 32 -> 0 <= v < 2 ^ BITS_PER_LONG a ->
  entry_mask entry <> 0 \/ v = 0 -> (31 <= fuel)%nat ->
  let m := entry_mask entry in
  let sh := ulong a (v ≪ trailing_zero_count m) in
  let w1 := emit (EvRawRead (access_width parent) (reg_addr parent))
                 (down_write w) in
  mmio_set_value a fuel (Some parent) (Some entry) v w =
  if Z.land sh m =? sh then
    Some (0, up_write
               (raw_write (access_width parent)
                  (wrap (8 * access_width parent)
                     (Z.lor (Z.land (register_value parent w) (Z.lnot m)) sh))
                  (reg_addr parent) w1))
  else Some (- EOVERFLOW, up_write w1).
Proof.
  intros Hm Hv Hnz Hfuel m sh w1. unfold mmio_set_value.
  rewrite read_reg_eq.
  assert (Hsh : (if negb (v =? 0)
                 then match set_loop a fuel (entry_mask entry) v with
                      | Some (_, value) => Some value
                      | None => None
                      end
                 else Some v) = Some sh).
  { destruct (Z.eqb_spec v 0) as [-> | Hv0]; simpl.
    - subst sh. rewrite Z.shiftl_0_l. reflexivity.
    - rewrite set_loop_nonzero by (try assumption; lia). reflexivity. }
  rewrite Hsh. fold m.
  destruct (Z.eqb_spec (Z.land sh m) sh) as [Hfit | Hover]; simpl; [| reflexivity].
  rewrite write_reg_eq, modify_trunc.
  - rewrite <- (register_value_emit parent EvDownWrite w), register_value_eq.
    reflexivity.
  - width_cases parent.
Qed.

Lemma mmio_get_value_mono (fuel fuel' : nat) (parent : option mmio_classdev)
    (entry : option mmio_entry) (w : world) (r : Z * world) :
  mmio_get_value fuel parent entry w = Some r -> (fuel <= fuel')%nat ->
  mmio_get_value fuel' parent entry w = Some r.
Proof.
  intros Hrun Hle. destruct parent as [parent |], entry as [entry |];
    try exact Hrun.
  unfold mmio_get_value in *. destruct (read_reg parent (down_read w)) as [reg w1].
  destruct (get_loop fuel _ _) as [[m reg'] |] eqn:Hloop; [| discriminate].
  now rewrite (get_loop_mono fuel fuel' _ _ _ Hloop Hle).
Qed.

Lemma mmio_set_value_mono (a : abi) (fuel fuel' : nat)
    (parent : option mmio_classdev) (entry : option mmio_entry) (v : Z)
    (w : world) (r : Z * world) :
  mmio_set_value a fuel parent entry v w = Some r -> (fuel <= fuel')%nat ->
  mmio_set_value a fuel' parent entry v w = Some r.
Proof.
  intros Hrun Hle. destruct parent as [parent |], entry as [entry |];
    try exact Hrun.
  unfold mmio_set_value in *. destruct (read_reg parent (down_write w)) as [reg w1].
  destruct (negb (v =? 0)); [| exact Hrun].
  destruct (set_loop a fuel _ _) as [[m v'] |] eqn:Hloop; [| discriminate].
  now rewrite (set_loop_mono a fuel fuel' _ _ _ Hloop Hle).
Qed.

(** [trailing_zero_count] is what its name says: the position of the
    lowest set bit. *)
Lemma trailing_zero_count_spec (m : Z) :
  0 < m ->
  Z.testbit m (trailing_zero_count m) = true /\
  forall i, 0 <= i < trailing_zero_count m -> Z.testbit m i = false.
Proof.
  destruct m as [| p | p]; try lia. intros _. simpl trailing_zero_count.
  induction p as [p IH | p IH |]; simpl low_zeros.
  - split; [reflexivity | lia].
  - destruct IH as [IHset IHlow]. pose proof (low_zeros_nonneg p) as Hp.
    rewrite Pos2Z.inj_xO. split.
    + now rewrite Z.double_bits_succ.
    + intros i Hi. destruct (Z.eq_dec i 0) as [-> | Hne].
      * apply Z.testbit_even_0.
      * replace i with (Z.succ (i - 1)) by lia.
        rewrite Z.double_bits_succ. apply IHlow. lia.
  - split; [reflexivity | lia].
Qed.

(** Whatever lies inside a mask is no longer than the mask. *)
Lemma inside_mask_range (k m x : Z) :
  0 <= k -> 0 <= m < 2 ^ k -> Z.land x m = x -> 0 <= x < 2 ^ k.
Proof.
  intros Hk Hm Hfit.
  assert (Hx : 0 <= x) by (rewrite <- Hfit; apply Z.land_nonneg; right; lia).
  apply Z.bounded_iff_bits_nonneg'; try assumption.
  intros l Hl. rewrite <- Hfit, Z.land_spec, (testbit_high k m l) by lia.
  apply andb_false_r.
Qed.

(** A value that fits a field is a non-negative number that the shift into
    the field does not push past the mask's length. *)
Lemma fits_bounds (k m v : Z) :
  0 <= k -> 0 <= m < 2 ^ k ->
  Z.land (v ≪ trailing_zero_count m) m = v ≪ trailing_zero_count m ->
  0 <= v <= v ≪ trailing_zero_count m /\ v ≪ trailing_zero_count m < 2 ^ k
  /\ (m = 0 -> v = 0).
Proof.
  intros Hk Hm Hfit. pose proof (trailing_zero_count_nonneg m) as Htz.
  destruct (inside_mask_range k m _ Hk Hm Hfit) as [Hsh Hlt].
  assert (Hv : 0 <= v) by (now apply Z.shiftl_nonneg in Hsh).
  repeat split; try assumption.
  - rewrite Z.shiftl_mul_pow2 by assumption.
    assert (1 <= 2 ^ trailing_zero_count m)
      by (apply (Z.pow_le_mono_r 2 0); lia).
    nia.
  - intros ->. simpl in Hfit. rewrite Z.shiftl_0_r, Z.land_0_r in Hfit. lia.
Qed.

(** A value that fits its field is stored: the call succeeds and writes the
    merged register, cut to the access width. *)
Lemma mmio_set_value_fits (a : abi) (fuel : nat) (parent : mmio_classdev)
    (entry : mmio_entry) (v : Z) (w : world) :
  0 <= entry_mask entry < 2 ^ 32 ->
  Z.land (v ≪ trailing_zero_count (entry_mask entry)) (entry_mask entry)
    = v ≪ trailing_zero_count (entry_mask entry) ->
  (31 <= fuel)%nat ->
  mmio_set_value a fuel (Some parent) (Some entry) v w =
  Some (0, up_write
             (raw_write (access_width parent)
                (wrap (8 * access_width parent)
                   (Z.lor (Z.land (register_value parent w)
                                  (Z.lnot (entry_mask entry)))
                          (v ≪ trailing_zero_count (entry_mask entry))))
                (reg_addr parent)
                (emit (EvRawRead (access_width parent) (reg_addr parent))
                      (down_write w)))).
Proof.
  intros Hm Hfit Hfuel.
  destruct (fits_bounds 32 _ v ltac:(lia) Hm Hfit) as ((Hv0 & Hle) & Hlt & Hzero).
  assert (Hlong : 2 ^ 32 <= 2 ^ BITS_PER_LONG a)
    by (apply Z.pow_le_mono_r; destruct a; simpl; lia).
  rewrite mmio_set_value_spec;
    [| assumption | lia
     | destruct (Z.eq_dec (entry_mask entry) 0); [right; auto | left; assumption]
     | assumption].
  cbv zeta. unfold ulong. rewrite wrap_small by lia.
  now rewrite Hfit, Z.eqb_refl.
Qed.

Lemma register_value_after_write (parent : mmio_classdev) (val : Z) (w : world) :
  register_value parent
    (up_write (raw_write (access_width parent)
                 (wrap (8 * access_width parent) val) (reg_addr parent) w))
  = wrap (8 * access_width parent) val.
Proof.
  rewrite register_value_eq. unfold up_write. rewrite peek_emit, peek_raw_write.
  apply wrap_small, wrap_range.
  width_cases parent.
Qed.

(** ** Reading a field *)

(** C4: for a bank and a field that are not null, and a non-zero mask,
    [mmio_get_value] returns the raw register value ANDed with the mask and
    shifted right by the mask's trailing-zero count, which puts the lowest
    bit of the field on bit 0; the register itself is left as it was. *)
Theorem get_value_masks_and_aligns (fuel : nat) (parent : mmio_classdev)
    (entry : mmio_entry) (w : world) :
  0 < entry_mask entry < 2 ^ 32 -> (31 <= fuel)%nat ->
  exists w',
    mmio_get_value fuel (Some parent) (Some entry) w =
      Some (Z.land (register_value parent w) (entry_mask entry)
              ≫ trailing_zero_count (entry_mask entry), w')
    /\ Z.testbit (entry_mask entry ≫ trailing_zero_count (entry_mask entry)) 0
       = true
    /\ io w' = io w
    /\ trace w' = trace w ++ [EvDownRead;
                               EvRawRead (access_width parent) (reg_addr parent);
                               EvUpRead].
Proof.
  intros Hm Hfuel. eexists. split; [now apply mmio_get_value_spec |].
  split; [| split].
  - rewrite Z.shiftr_spec, Z.add_0_l by lia.
    now apply trailing_zero_count_spec.
  - reflexivity.
  - simpl. now rewrite <- !app_assoc.
Qed.

Lemma get_value_masks_and_aligns_witness :
  0 < entry_mask (field "speed" 0xFF00) < 2 ^ 32 /\ (31 <= 31)%nat /\
  exists w',
    mmio_get_value 31 (Some (sample_bank 4 [])) (Some (field "speed" 0xFF00))
                   (world_with 4096 0xABCD1234) = Some (0x12, w').
Proof.
  assert (Hm : 0 < entry_mask (field "speed" 0xFF00) < 2 ^ 32) by (simpl; lia).
  assert (Hf : (31 <= 31)%nat) by lia.
  split; [exact Hm | split; [exact Hf |]].
  destruct (get_value_masks_and_aligns 31 (sample_bank 4 [])
              (field "speed" 0xFF00) (world_with 4096 0xABCD1234) Hm Hf)
    as (w' & Hget & _).
  exists w'. exact Hget.
Defined.

(** ** Null arguments *)

(** C8: with a null bank or a null field, [mmio_get_value] logs the
    condition and returns 0, it does not fail; [mmio_set_value] fails with
    [-EINVAL] and touches nothing, the hardware included. *)
Theorem null_arguments (a : abi) (fuel : nat) (parent : option mmio_classdev)
    (entry : option mmio_entry) (v : Z) (w : world) :
  parent = None \/ entry = None ->
  mmio_get_value fuel parent entry w = Some (0, printk LogNullDeref w)
  /\ filter is_hw_access (trace (printk LogNullDeref w))
     = filter is_hw_access (trace w)
  /\ mmio_set_value a fuel parent entry v w = Some (- EINVAL, w).
Proof.
  intros [-> | ->]; [destruct entry | destruct parent]; simpl;
    rewrite ?filter_app, ?app_nil_r; auto.
Qed.

Lemma null_arguments_witness :
  mmio_get_value 0 None (Some (field "speed" 0xFF00)) empty_world
    = Some (0, printk LogNullDeref empty_world)
  /\ mmio_set_value ILP32 0 None (Some (field "speed" 0xFF00)) 5 empty_world
    = Some (- EINVAL, empty_world).
Proof.
  destruct (null_arguments ILP32 0 None (Some (field "speed" 0xFF00)) 5
              empty_world (or_introl eq_refl)) as (Hget & _ & Hset).
  split; [exact Hget | exact Hset].
Defined.

(** ** Termination *)

(** C10: the two normalisation loops end exactly when the mask has a set
    bit.  For a bank and a field that are not null, [mmio_get_value]
    returns for every non-zero mask, after at most 31 runs of the loop
    body, and [mmio_set_value] returns when the mask is non-zero or the
    value is 0; on a zero mask [mmio_get_value] never returns, and neither
    does [mmio_set_value] on a non-zero value. *)
Theorem accessors_return_iff_mask_nonzero (a : abi) (parent : mmio_classdev)
    (entry : mmio_entry) (v : Z) (w : world) :
  0 <= entry_mask entry < 2 ^ 32 -> 0 <= v < 2 ^ BITS_PER_LONG a ->
  (entry_mask entry <> 0 ->
   forall fuel, (31 <= fuel)%nat ->
     is_Some (mmio_get_value fuel (Some parent) (Some entry) w))
  /\ (entry_mask entry <> 0 \/ v = 0 ->
      forall fuel, (31 <= fuel)%nat ->
        is_Some (mmio_set_value a fuel (Some parent) (Some entry) v w))
  /\ (returns (fun fuel => mmio_get_value fuel (Some parent) (Some entry) w)
      <-> entry_mask entry <> 0)
  /\ (returns (fun fuel => mmio_set_value a fuel (Some parent) (Some entry) v w)
      <-> entry_mask entry <> 0 \/ v = 0).
Proof.
  intros Hm Hv.
  assert (Hget : entry_mask entry <> 0 ->
                 forall fuel, (31 <= fuel)%nat ->
                   is_Some (mmio_get_value fuel (Some parent) (Some entry) w)).
  { intros Hnz fuel Hfuel. rewrite mmio_get_value_spec by (try assumption; lia).
    eauto. }
  assert (Hset : entry_mask entry <> 0 \/ v = 0 ->
                 forall fuel, (31 <= fuel)%nat ->
                   is_Some (mmio_set_value a fuel (Some parent) (Some entry) v w)).
  { intros Hnz fuel Hfuel. rewrite mmio_set_value_spec by assumption.
    cbv zeta. case_match; eauto. }
  split; [exact Hget | split; [exact Hset |]]. split; split.
  - intros (fuel & r & Hrun) Hzero. unfold mmio_get_value in Hrun.
    rewrite read_reg_eq, Hzero, get_loop_zero in Hrun. discriminate.
  - intros Hnz. destruct (Hget Hnz 31%nat ltac:(lia)) as [r Hr]. now exists 31%nat, r.
  - intros (fuel & r & Hrun).
    destruct (Z.eq_dec (entry_mask entry) 0) as [Hzero | Hnz]; [| now left].
    destruct (Z.eqb_spec v 0) as [Hv0 | Hv0]; [now right |].
    unfold mmio_set_value in Hrun. rewrite read_reg_eq in Hrun.
    destruct (Z.eqb_spec v 0); [contradiction |].
    simpl in Hrun. rewrite Hzero, set_loop_zero in Hrun. discriminate.
  - intros Hnz. destruct (Hset Hnz 31%nat ltac:(lia)) as [r Hr]. now exists 31%nat, r.
Qed.

Lemma accessors_return_iff_mask_nonzero_witness :
  is_Some (mmio_get_value 31 (Some (sample_bank 4 []))
             (Some (field "top" 0x80000000)) empty_world)
  /\ ~ returns (fun fuel => mmio_set_value ILP32 fuel (Some (sample_bank 4 []))
                              (Some (field "none" 0)) 1 empty_world).
Proof.
  assert (Hm1 : 0 <= entry_mask (field "top" 0x80000000) < 2 ^ 32) by (simpl; lia).
  assert (Hm0 : 0 <= entry_mask (field "none" 0) < 2 ^ 32) by (simpl; lia).
  assert (Hv : 0 <= 1 < 2 ^ BITS_PER_LONG ILP32) by (simpl; lia).
  split.
  - apply (proj1 (accessors_return_iff_mask_nonzero ILP32 (sample_bank 4 [])
                    (field "top" 0x80000000) 1 empty_world Hm1 Hv)).
    + simpl. lia.
    + lia.
  - intros Hret.
    apply (proj2 (proj2 (proj2 (accessors_return_iff_mask_nonzero ILP32
             (sample_bank 4 []) (field "none" 0) 1 empty_world Hm0 Hv))))
      in Hret.
    simpl in Hret. lia.
Defined.

(** The bound of 31 loop runs is reached: the mask [0x80000000] needs all
    of them. *)
Example get_value_needs_31_runs :
  mmio_get_value 30 (Some (sample_bank 4 [])) (Some (field "top" 0x80000000))
                 empty_world = None
  /\ is_Some (mmio_get_value 31 (Some (sample_bank 4 []))
                (Some (field "top" 0x80000000)) empty_world).
Proof. split; [vm_compute; reflexivity | vm_compute; eauto]. Qed.

(** ** Writing a field *)

(** C2 (amended): for a bank that is not null, a field with a non-zero
    mask (or the value 0) and a value whose shift into the field's position
    stays inside the [unsigned long], [mmio_set_value] fails with
    [-EOVERFLOW] exactly when the value is non-zero and, once shifted left
    into the field's position, is not inside the mask:
    [(shifted_v & mask) != shifted_v].  It then writes nothing and the
    register holds what it held; in every other case the call returns 0. *)
Theorem set_value_overflow_iff (a : abi) (fuel : nat) (parent : mmio_classdev)
    (entry : mmio_entry) (v : Z) (w : world) :
  0 <= entry_mask entry < 2 ^ 32 ->
  entry_mask entry <> 0 \/ v = 0 ->
  0 <= v ->
  v ≪ trailing_zero_count (entry_mask entry) < 2 ^ BITS_PER_LONG a ->
  (31 <= fuel)%nat ->
  let shifted_v := v ≪ trailing_zero_count (entry_mask entry) in
  exists r w',
    mmio_set_value a fuel (Some parent) (Some entry) v w = Some (r, w')
    /\ (r = - EOVERFLOW <->
        v <> 0 /\ Z.land shifted_v (entry_mask entry) <> shifted_v)
    /\ (r <> - EOVERFLOW -> r = 0)
    /\ (r = - EOVERFLOW ->
        io w' = io w
        /\ register_value parent w' = register_value parent w
        /\ trace w' = trace w ++ [EvDownWrite;
                                   EvRawRead (access_width parent) (reg_addr parent);
                                   EvUpWrite]).
Proof.
  intros Hm Hnz Hv Hnowrap Hfuel shifted_v.
  pose proof (trailing_zero_count_nonneg (entry_mask entry)) as Htz.
  assert (Hle : v <= shifted_v).
  { unfold shifted_v. rewrite Z.shiftl_mul_pow2 by assumption.
    assert (1 <= 2 ^ trailing_zero_count (entry_mask entry))
      by (apply (Z.pow_le_mono_r 2 0); lia).
    nia. }
  rewrite mmio_set_value_spec by (try assumption; unfold shifted_v in Hle; lia).
  cbv zeta. unfold ulong. rewrite wrap_small by (unfold shifted_v in Hle; lia).
  fold shifted_v.
  destruct (Z.eqb_spec (Z.land shifted_v (entry_mask entry)) shifted_v)
    as [Hfit | Hover]; eexists _, _; (split; [reflexivity |]).
  - split; [| split]; [| reflexivity | discriminate].
    split; [discriminate | intros [_ Hne]; contradiction].
  - split; [| split]; [| intros Hne; now contradict Hne |].
    + split; [| reflexivity]. intros _. split; [| assumption].
      intros ->. apply Hover. unfold shifted_v.
      rewrite Z.shiftl_0_l. reflexivity.
    + intros _. split; [reflexivity |]. split.
      * now rewrite !register_value_eq.
      * simpl. now rewrite <- !app_assoc.
Qed.

Lemma set_value_overflow_iff_witness :
  exists w',
    mmio_set_value ILP32 31 (Some (sample_bank 4 [])) (Some (field "speed" 0xFF00))
                   0x1FF (world_with 4096 0xABCD1234) = Some (- EOVERFLOW, w')
    /\ register_value (sample_bank 4 []) w' = 0xABCD1234.
Proof.
  assert (Hm : 0 <= entry_mask (field "speed" 0xFF00) < 2 ^ 32) by (simpl; lia).
  assert (Hnz : entry_mask (field "speed" 0xFF00) <> 0 \/ 0x1FF = 0)
    by (left; simpl; lia).
  assert (Hv : 0 <= 0x1FF) by lia.
  assert (Hnowrap : 0x1FF ≪ trailing_zero_count (entry_mask (field "speed" 0xFF00))
                    < 2 ^ BITS_PER_LONG ILP32) by reflexivity.
  assert (Hf : (31 <= 31)%nat) by lia.
  destruct (set_value_overflow_iff ILP32 31 (sample_bank 4 [])
              (field "speed" 0xFF00) 0x1FF (world_with 4096 0xABCD1234)
              Hm Hnz Hv Hnowrap Hf) as (r & w' & Hset & Hiff & _ & Hkeep).
  assert (Hr : r = - EOVERFLOW).
  { apply Hiff. split; [lia | vm_compute; discriminate]. }
  exists w'. split.
  - rewrite Hset, Hr. reflexivity.
  - destruct (Hkeep Hr) as (_ & Hreg & _). rewrite Hreg. reflexivity.
Defined.

(** As first stated the property reaches the mask 0 too.  There the loop
    of [mmio_set_value] never ends on a non-zero value: the call does not
    return, with [-EOVERFLOW] or otherwise, although the value 1 is not
    inside the empty mask. *)
Lemma set_value_zero_mask_never_fails :
  let shifted_v := ulong LP64 (1 ≪ trailing_zero_count 0) in
  Z.land shifted_v 0 <> shifted_v
  /\ ~ exists fuel r,
         mmio_set_value LP64 fuel (Some (sample_bank 4 [field "none" 0]))
                        (Some (field "none" 0)) 1 empty_world = Some r.
Proof.
  cbv zeta. split; [vm_compute; discriminate |].
  intros (fuel & r & Hrun). unfold mmio_set_value in Hrun.
  rewrite read_reg_eq in Hrun. simpl in Hrun.
  rewrite set_loop_zero in Hrun. discriminate.
Qed.

(** The shift is done inside the [unsigned long], and the test comes after
    it: bits pushed out at the top are lost before the test, so a value far
    too long for its field can pass.  Here a 32-bit value is accepted by a
    one-bit field and stored as 1.  The property above leaves such values
    out. *)
Example set_value_drops_high_bits :
  exists w',
    mmio_set_value ILP32 31 (Some (sample_bank 4 [])) (Some (field "bit1" 2))
                   0x80000001 empty_world = Some (0, w')
    /\ register_value (sample_bank 4 []) w' = 2.
Proof. eexists. split; [reflexivity |]. vm_compute. reflexivity. Qed.

(** C3 (amended): for a bank and a field that are not null and a value
    that fits the field, [mmio_set_value] succeeds and writes
    [(old_reg & ~mask) | (v << tzc mask)] cut to the width of the bank's
    register; every bit outside the mask keeps its value, and when the mask
    lies inside the register's width nothing is cut. *)
Theorem set_value_frame (a : abi) (fuel : nat) (parent : mmio_classdev)
    (entry : mmio_entry) (v : Z) (w : world) :
  0 <= entry_mask entry < 2 ^ 32 ->
  Z.land (v ≪ trailing_zero_count (entry_mask entry)) (entry_mask entry)
    = v ≪ trailing_zero_count (entry_mask entry) ->
  (31 <= fuel)%nat ->
  let old_reg := register_value parent w in
  let merged := Z.lor (Z.land old_reg (Z.lnot (entry_mask entry)))
                      (v ≪ trailing_zero_count (entry_mask entry)) in
  let new_reg := wrap (8 * access_width parent) merged in
  exists w',
    mmio_set_value a fuel (Some parent) (Some entry) v w = Some (0, w')
    /\ trace w' = trace w ++ [EvDownWrite;
                               EvRawRead (access_width parent) (reg_addr parent);
                               EvRawWrite (access_width parent) (reg_addr parent) new_reg;
                               EvUpWrite]
    /\ register_value parent w' = new_reg
    /\ (forall i, 0 <= i -> Z.testbit (entry_mask entry) i = false ->
                  Z.testbit new_reg i = Z.testbit old_reg i)
    /\ (entry_mask entry < 2 ^ (8 * access_width parent) -> new_reg = merged).
Proof.
  intros Hm Hfit Hfuel old_reg merged new_reg.
  set (m := entry_mask entry) in *. set (tz := trailing_zero_count m) in *.
  assert (Hw : 0 <= 8 * access_width parent <= 32)
    by (width_cases parent).
  pose proof (register_value_range parent w) as Hold. fold old_reg in Hold.
  destruct (fits_bounds 32 m v ltac:(lia) Hm Hfit) as ((Hv0 & Hle) & _).
  fold tz in Hle.
  rewrite mmio_set_value_fits by assumption.
  fold m tz old_reg merged new_reg.
  eexists. split; [reflexivity |]. split; [| split; [| split]].
  - simpl. now rewrite <- !app_assoc.
  - apply register_value_after_write.
  - intros i Hi Hout. unfold new_reg, merged.
    rewrite testbit_wrap, Z.lor_spec, Z.land_spec, Z.lnot_spec, Hout by lia.
    assert (Hsh : Z.testbit (v ≪ tz) i = false).
    { rewrite <- Hfit, Z.land_spec, Hout. apply andb_false_r. }
    rewrite Hsh, andb_true_r, orb_false_r.
    destruct (Z.ltb_spec i (8 * access_width parent)) as [Hin | Hhigh];
      [reflexivity |].
    symmetry. apply (testbit_high (8 * access_width parent)); lia.
  - intros Hinside. unfold new_reg. apply wrap_small.
    apply Z.bounded_iff_bits_nonneg'; [lia | |].
    + unfold merged. apply Z.lor_nonneg. split; [| lia].
      apply Z.land_nonneg. left. lia.
    + intros l Hl. unfold merged.
      rewrite Z.lor_spec, Z.land_spec,
        (testbit_high (8 * access_width parent) old_reg l) by lia.
      rewrite <- Hfit, Z.land_spec,
        (testbit_high (8 * access_width parent) m l) by lia.
      now rewrite andb_false_r.
Qed.

Lemma set_value_frame_witness :
  exists w',
    mmio_set_value ILP32 31 (Some (sample_bank 4 [])) (Some (field "speed" 0xFF00))
                   0x2A (world_with 4096 0xABCD1234) = Some (0, w')
    /\ register_value (sample_bank 4 []) w' = 0xABCD2A34.
Proof.
  assert (Hm : 0 <= entry_mask (field "speed" 0xFF00) < 2 ^ 32) by (simpl; lia).
  assert (Hfit : Z.land (0x2A ≪ trailing_zero_count (entry_mask (field "speed" 0xFF00)))
                        (entry_mask (field "speed" 0xFF00))
                 = 0x2A ≪ trailing_zero_count (entry_mask (field "speed" 0xFF00)))
    by reflexivity.
  assert (Hf : (31 <= 31)%nat) by lia.
  destruct (set_value_frame ILP32 31 (sample_bank 4 []) (field "speed" 0xFF00)
              0x2A (world_with 4096 0xABCD1234) Hm Hfit Hf)
    as (w' & Hset & _ & Hreg & _).
  exists w'. split; [exact Hset |]. rewrite Hreg. reflexivity.
Defined.

(** The claim as first stated has no cut.  On a one-byte bank a field whose
    mask lies above bit 7 is written through [(u8) reg]: the value written
    is [0x55], not [(0x55 & ~0x100) | (1 << 8) = 0x155]. *)
Lemma set_value_write_is_cut_to_width :
  let bank := sample_bank 1 [field "wide" 0x100] in
  let w := world_with 4096 0x55 in
  Z.land (1 ≪ trailing_zero_count 0x100) 0x100 = 1 ≪ trailing_zero_count 0x100
  /\ exists w',
       mmio_set_value ILP32 31 (Some bank) (Some (field "wide" 0x100)) 1 w
         = Some (0, w')
       /\ written_values (trace w') = [0x55]
       /\ Z.lor (Z.land (register_value bank w) (Z.lnot 0x100))
                (1 ≪ trailing_zero_count 0x100) = 0x155.
Proof.
  cbv zeta. split; [reflexivity |].
  eexists. split; [reflexivity |].
  split; vm_compute; reflexivity.
Qed.

(** ** Writing, then reading *)

(** C1 (amended): for a bank and a field whose non-zero mask lies inside
    the bank's register width, and every value [v] that fits the field
    ([(v << tzc mask) & mask == v << tzc mask], the shift taken without
    loss of bits), [mmio_set_value] succeeds and a following
    [mmio_get_value] returns [v]; the register reads back what was last
    written to it. *)
Theorem set_then_get (a : abi) (fuel : nat) (parent : mmio_classdev)
    (entry : mmio_entry) (v : Z) (w : world) :
  0 < entry_mask entry < 2 ^ (8 * access_width parent) ->
  Z.land (v ≪ trailing_zero_count (entry_mask entry)) (entry_mask entry)
    = v ≪ trailing_zero_count (entry_mask entry) ->
  (31 <= fuel)%nat ->
  exists w1 w2,
    mmio_set_value a fuel (Some parent) (Some entry) v w = Some (0, w1)
    /\ mmio_get_value fuel (Some parent) (Some entry) w1 = Some (v, w2).
Proof.
  intros Hm Hfit Hfuel.
  set (m := entry_mask entry) in *. set (tz := trailing_zero_count m) in *.
  assert (Hw : 0 <= 8 * access_width parent <= 32)
    by (width_cases parent).
  assert (Hm32 : 0 < m < 2 ^ 32).
  { split; [lia |]. apply Z.lt_le_trans with (2 ^ (8 * access_width parent)); [lia |].
    apply Z.pow_le_mono_r; lia. }
  pose proof (trailing_zero_count_nonneg m) as Htz. fold tz in Htz.
  rewrite mmio_set_value_fits by (try assumption; fold m; lia).
  eexists _, _. split; [reflexivity |].
  rewrite mmio_get_value_spec by assumption.
  rewrite register_value_after_write. fold m tz. f_equal. f_equal.
  apply Z.bits_inj'. intros i Hi.
  rewrite Z.shiftr_spec, Z.land_spec, testbit_wrap, Z.lor_spec, Z.land_spec,
    Z.lnot_spec by lia.
  assert (Hvi : Z.testbit (v ≪ tz) (i + tz) = Z.testbit v i).
  { rewrite Z.shiftl_spec by lia. f_equal. lia. }
  rewrite Hvi.
  destruct (Z.testbit m (i + tz)) eqn:Hbit.
  - destruct (Z.ltb_spec (i + tz) (8 * access_width parent)) as [Hin | Hhigh].
    + simpl. now rewrite andb_false_r, andb_true_r.
    + rewrite (testbit_high (8 * access_width parent) m (i + tz)) in Hbit by lia.
      discriminate.
  - rewrite andb_false_r. rewrite <- Hvi, <- Hfit, Z.land_spec, Hbit.
    now rewrite andb_false_r.
Qed.

Lemma set_then_get_witness :
  exists w1 w2,
    mmio_set_value ILP32 31 (Some (sample_bank 4 [])) (Some (field "speed" 0xFF00))
                   0x2A (world_with 4096 0xABCD1234) = Some (0, w1)
    /\ mmio_get_value 31 (Some (sample_bank 4 [])) (Some (field "speed" 0xFF00)) w1
       = Some (0x2A, w2).
Proof.
  apply (set_then_get ILP32 31 (sample_bank 4 []) (field "speed" 0xFF00) 0x2A
           (world_with 4096 0xABCD1234)).
  - split; reflexivity.
  - reflexivity.
  - lia.
Defined.

(** As first stated the property covers every field of a registered bank.
    A one-byte bank registers with a field whose mask lies above bit 7; the
    value 1 fits that field and [mmio_set_value] accepts it, yet the write
    goes through [(u8) reg] and the following read returns 0. *)
Lemma roundtrip_lost_beyond_width :
  let f := field "wide" 0x100 in
  Z.land (1 ≪ trailing_zero_count (entry_mask f)) (entry_mask f)
    = 1 ≪ trailing_zero_count (entry_mask f)
  /\ exists bank w0 w1 w2,
       mmio_classdev_register willing_host 1 (sample_bank 1 [f]) empty_world
         = Some (0, bank, w0)
       /\ find_entry (default [] (cdev_entries bank)) (Some "wide"%string)
          = Some (populate_attr f)
       /\ mmio_set_value ILP32 31 (Some bank) (Some (populate_attr f)) 1 w0
          = Some (0, w1)
       /\ mmio_get_value 31 (Some bank) (Some (populate_attr f)) w1
          = Some (0, w2).
Proof.
  cbv zeta. split; [reflexivity |].
  eexists _, _, _, _. repeat split; reflexivity.
Qed.

(** ** The store handler *)

Lemma wrap_wrap (k n x : Z) : 0 <= k <= n -> wrap k (wrap n x) = wrap k x.
Proof.
  intros Hk. apply Z.bits_inj'. intros i Hi.
  rewrite !testbit_wrap by lia.
  destruct (Z.ltb_spec i k) as [Hlt | Hge]; [| reflexivity].
  destruct (Z.ltb_spec i n); [reflexivity | lia].
Qed.

Lemma wrap_step (n x y d : Z) :
  wrap n x = wrap n y -> wrap n (x * 10 + d) = wrap n (y * 10 + d).
Proof.
  unfold wrap. intros Hxy.
  rewrite (Zplus_mod (x * 10)), (Zplus_mod (y * 10)), (Zmult_mod x), (Zmult_mod y), Hxy.
  reflexivity.
Qed.

Lemma decimal_from_wrap (n : Z) (s : string) (x y : Z) :
  wrap n x = wrap n y -> wrap n (decimal_from x s) = wrap n (decimal_from y s).
Proof.
  revert x y. induction s as [| c s IH]; intros x y Hxy; simpl; [assumption |].
  apply IH. now apply wrap_step.
Qed.

(** The wrapping accumulator of the kernel's parser is the decimal value
    of the digits, modulo [2 ^ 64]. *)
Lemma parse_integer_value (s : string) (res rv : Z) :
  wrap 64 (fst (parse_integer s res rv))
  = wrap 64 (decimal_from res (digits_prefix s)).
Proof.
  revert res rv. induction s as [| c s IH]; intros res rv; simpl; [reflexivity |].
  destruct (is_digit c); simpl; [| reflexivity].
  rewrite IH. apply decimal_from_wrap. apply wrap_wrap. lia.
Qed.

Lemma parse_integer_count (s : string) (res rv : Z) :
  snd (parse_integer s res rv)
  = rv + Z.of_nat (String.length (digits_prefix s)).
Proof.
  revert res rv. induction s as [| c s IH]; intros res rv; simpl; [lia |].
  destruct (is_digit c); simpl; [| lia].
  rewrite IH. lia.
Qed.

Lemma simple_strtoul_eq (a : abi) (buf : string) :
  simple_strtoul a buf
  = (ulong a (decimal_value (digits_prefix buf)),
     Z.of_nat (String.length (digits_prefix buf))).
Proof.
  unfold simple_strtoul.
  pose proof (parse_integer_value buf 0 0) as Hval.
  pose proof (parse_integer_count buf 0 0) as Hcnt.
  destruct (parse_integer buf 0 0) as [res rv]. simpl in *.
  f_equal; [| lia]. unfold ulong, decimal_value.
  rewrite <- (wrap_wrap (BITS_PER_LONG a) 64 res) by (destruct a; simpl; lia).
  rewrite Hval. apply wrap_wrap. destruct a; simpl; lia.
Qed.

Lemma mmio_value_store_eq (a : abi) (fuel : nat) (mmio_cdev : mmio_classdev)
    (attr : device_attribute) (entry : mmio_entry) (buf : string) (size : Z)
    (w : world) :
  find_entry (default [] (cdev_entries mmio_cdev)) (attr_name attr) = Some entry ->
  Z.land (entry_flags entry) MMIO_ENTRY_WRITE <> 0 ->
  mmio_value_store a fuel mmio_cdev attr buf size w =
  if consumed_length buf =? size then
    store_result (consumed_length buf)
      (mmio_set_value a fuel (Some mmio_cdev) (Some entry)
         (ulong a (decimal_value (digits_prefix buf))) w)
  else Some (- EINVAL, w).
Proof.
  intros Hfind Hflags. unfold mmio_value_store.
  rewrite simple_strtoul_eq, Hfind.
  destruct (Z.eqb_spec (Z.land (entry_flags entry) MMIO_ENTRY_WRITE) 0);
    [contradiction |].
  fold (consumed_length buf).
  destruct (consumed_length buf =? size); reflexivity.
Qed.

Lemma space_is_no_digit (c : ascii) : isspace c = true -> is_digit c = false.
Proof.
  unfold isspace, is_digit. intros Hsp.
  destruct (Z.leb_spec 48 (char_code c)), (Z.leb_spec (char_code c) 57);
    try reflexivity.
  destruct (Z.leb_spec 9 (char_code c)), (Z.leb_spec (char_code c) 13),
    (Z.eqb_spec (char_code c) 32), (Z.eqb_spec (char_code c) 160);
    simpl in Hsp; try discriminate; lia.
Qed.

Lemma consumed_length_eq (buf : string) :
  consumed_length buf =
  Z.of_nat (String.length (digits_prefix buf))
  + (if isspace (match String.get (String.length (digits_prefix buf)) buf with
                 | Some c => c
                 | None => zero
                 end)
     then 1 else 0).
Proof.
  unfold consumed_length, char_at. rewrite Nat2Z.id.
  destruct (isspace _); lia.
Qed.

(** The consumed length is the whole input exactly on digits followed by
    at most one white-space character. *)
Lemma consumed_all_iff (buf : string) :
  consumed_length buf = Z.of_nat (String.length buf) <-> well_formed_input buf.
Proof.
  induction buf as [| c s IH].
  - split; [| reflexivity]. intros _. exists EmptyString, EmptyString. auto.
  - rewrite consumed_length_eq in *. simpl digits_prefix.
    destruct (is_digit c) eqn:Hdig.
    + simpl String.length. simpl String.get.
      transitivity (well_formed_input s).
      * rewrite <- IH. lia.
      * split.
        -- intros (d & t & -> & Hd & Ht). exists (String c d), t.
           split; [reflexivity |]. simpl. rewrite Hdig, Hd. auto.
        -- intros (d & t & Hbuf & Hd & Ht). destruct d as [| c' d].
           ++ change (String c s = t) in Hbuf. subst t.
              destruct Ht as [Ht | (c' & Hsp & Ht)]; [discriminate |].
              injection Ht as -> _. apply space_is_no_digit in Hsp. congruence.
           ++ change (String c s = String c' (d ++ t)%string) in Hbuf.
              simpl in Hd. injection Hbuf as -> ->.
              apply andb_prop in Hd as [_ Hd]. exists d, t. auto.
    + simpl String.length. simpl String.get. split.
      * intros Hlen. exists EmptyString, (String c s).
        split; [reflexivity | split; [reflexivity | right]].
        destruct (isspace c) eqn:Hsp; [| lia].
        exists c. split; [assumption |].
        destruct s; [reflexivity | simpl in Hlen; lia].
      * intros (d & t & Hbuf & Hd & Ht). destruct d as [| c' d].
        -- change (String c s = t) in Hbuf. subst t.
           destruct Ht as [Ht | (c' & Hsp & Ht)]; [discriminate |].
           injection Ht as -> ->. rewrite Hsp. reflexivity.
        -- change (String c s = String c' (d ++ t)%string) in Hbuf.
           simpl in Hd. injection Hbuf as -> ->.
           rewrite Hdig in Hd. discriminate.
Qed.

(** Once the entry is found, the store handler does what a write handler
    is to do. *)
Lemma mmio_value_store_found (a : abi) (fuel : nat) (mmio_cdev : mmio_classdev)
    (attr : device_attribute) (entry : mmio_entry) (buf : string) (size : Z)
    (w : world) :
  find_entry (default [] (cdev_entries mmio_cdev)) (attr_name attr) = Some entry ->
  mmio_value_store a fuel mmio_cdev attr buf size w
  = write_handler_contract a fuel mmio_cdev entry buf size w.
Proof.
  intros Hfind. unfold mmio_value_store, write_handler_contract.
  rewrite simple_strtoul_eq, Hfind.
  destruct (Z.land (entry_flags entry) MMIO_ENTRY_WRITE =? 0); [reflexivity |].
  fold (consumed_length buf).
  destruct (consumed_length buf =? size); reflexivity.
Qed.

(** C9 (amended): on a field that carries [MMIO_ENTRY_WRITE],
    [mmio_value_store] parses the leading decimal digits, counts one
    white-space character after them if there is one, and hands the parsed
    number to [mmio_set_value] only when the counted length is the whole
    input, which is when the input is digits followed by at most one
    white-space character; on every input where the lengths differ it
    returns [-EINVAL] and [mmio_set_value] is not called.  On a field
    without [MMIO_ENTRY_WRITE] it returns [-EPERM] on every input, whole or
    not, and [mmio_set_value] is not called.  (An attribute that names no
    entry is answered with [-EINVAL].) *)
Theorem value_store_forwards_whole_input (a : abi) (fuel : nat)
    (mmio_cdev : mmio_classdev) (attr : device_attribute)
    (buf : string) (w : world) :
  let size := Z.of_nat (String.length buf) in
  let parsed := ulong a (decimal_value (digits_prefix buf)) in
  let found := find_entry (default [] (cdev_entries mmio_cdev)) (attr_name attr) in
  (consumed_length buf = size <-> well_formed_input buf)
  /\ (forall entry,
        found = Some entry ->
        Z.land (entry_flags entry) MMIO_ENTRY_WRITE <> 0 ->
        (consumed_length buf = size ->
         mmio_value_store a fuel mmio_cdev attr buf size w =
         store_result size
           (mmio_set_value a fuel (Some mmio_cdev) (Some entry) parsed w))
        /\ (consumed_length buf <> size ->
            mmio_value_store a fuel mmio_cdev attr buf size w = Some (- EINVAL, w)))
  /\ (forall entry,
        found = Some entry ->
        Z.land (entry_flags entry) MMIO_ENTRY_WRITE = 0 ->
        mmio_value_store a fuel mmio_cdev attr buf size w = Some (- EPERM, w))
  /\ (found = None ->
      mmio_value_store a fuel mmio_cdev attr buf size w = Some (- EINVAL, w)).
Proof.
  intros size parsed found.
  split; [apply consumed_all_iff |]. split; [| split].
  - intros entry Hfind Hflags.
    rewrite (mmio_value_store_found a fuel mmio_cdev attr entry) by exact Hfind.
    unfold write_handler_contract.
    destruct (Z.eqb_spec (Z.land (entry_flags entry) MMIO_ENTRY_WRITE) 0);
      [contradiction |].
    split.
    + intros Hlen. rewrite Hlen, Z.eqb_refl. reflexivity.
    + intros Hlen.
      destruct (Z.eqb_spec (consumed_length buf) size); [contradiction | reflexivity].
  - intros entry Hfind Hflags.
    rewrite (mmio_value_store_found a fuel mmio_cdev attr entry) by exact Hfind.
    unfold write_handler_contract. rewrite Hflags. reflexivity.
  - intros Hfind. unfold mmio_value_store. fold found. rewrite Hfind.
    destruct (simple_strtoul a buf). reflexivity.
Qed.

Lemma value_store_forwards_whole_input_witness :
  let bank := sample_bank 4 [field "speed" 0xFF00; read_only_field "status" 0xFF] in
  let speed := entry_attr (populate_attr (field "speed" 0xFF00)) in
  let status := entry_attr (populate_attr (read_only_field "status" 0xFF)) in
  let line := String "4" (String "2" (String "010" EmptyString)) in
  mmio_value_store ILP32 31 bank speed line 3 (world_with 4096 0xABCD1234)
  = store_result 3
      (mmio_set_value ILP32 31 (Some bank) (Some (field "speed" 0xFF00)) 42
         (world_with 4096 0xABCD1234))
  /\ mmio_value_store ILP32 31 bank speed "4 2" 3 (world_with 4096 0xABCD1234)
     = Some (- EINVAL, world_with 4096 0xABCD1234)
  /\ mmio_value_store ILP32 31 bank status line 3 (world_with 4096 0xABCD1234)
     = Some (- EPERM, world_with 4096 0xABCD1234).
Proof.
  cbv zeta. split; [| split].
  - apply (proj1 (proj1 (proj2 (value_store_forwards_whole_input ILP32 31
                           (sample_bank 4 [field "speed" 0xFF00;
                                           read_only_field "status" 0xFF])
                           (entry_attr (populate_attr (field "speed" 0xFF00)))
                           (String "4" (String "2" (String "010" EmptyString)))
                           (world_with 4096 0xABCD1234)))
                    (field "speed" 0xFF00) eq_refl
                    ltac:(vm_compute; discriminate)));
      reflexivity.
  - apply (proj2 (proj1 (proj2 (value_store_forwards_whole_input ILP32 31
                           (sample_bank 4 [field "speed" 0xFF00;
                                           read_only_field "status" 0xFF])
                           (entry_attr (populate_attr (field "speed" 0xFF00)))
                           "4 2" (world_with 4096 0xABCD1234)))
                    (field "speed" 0xFF00) eq_refl
                    ltac:(vm_compute; discriminate))).
    vm_compute. discriminate.
  - apply (proj1 (proj2 (proj2 (value_store_forwards_whole_input ILP32 31
                           (sample_bank 4 [field "speed" 0xFF00;
                                           read_only_field "status" 0xFF])
                           (entry_attr (populate_attr (read_only_field "status" 0xFF)))
                           (String "4" (String "2" (String "010" EmptyString)))
                           (world_with 4096 0xABCD1234))))
             (read_only_field "status" 0xFF)); reflexivity.
Defined.

(** As first stated the rejection with [-EINVAL] holds for every input.
    The permission test comes before the length test: on a field without
    [MMIO_ENTRY_WRITE] an input that is not consumed whole is answered
    with [-EPERM]. *)
Lemma value_store_read_only_is_eperm :
  let bank := sample_bank 4 [read_only_field "status" 0xFF] in
  let attr := entry_attr (populate_attr (read_only_field "status" 0xFF)) in
  consumed_length "x" <> Z.of_nat (String.length "x")
  /\ mmio_value_store ILP32 31 bank attr "x" 1 empty_world
     = Some (- EPERM, empty_world)
  /\ - EPERM <> - EINVAL.
Proof.
  cbv zeta. split; [vm_compute; discriminate |].
  split; [reflexivity | vm_compute; discriminate].
Qed.

(** ** Registration: the checks *)

Lemma u32_s32_add (x y : Z) : u32 (s32 x + y) = u32 (x + y).
Proof.
  unfold s32, u32, wrap. destruct (x mod 2 ^ 32 <? 2 ^ 31).
  - apply Zplus_mod_idemp_l.
  - replace (x mod 2 ^ 32 - 2 ^ 32 + y) with (x mod 2 ^ 32 + y + (-1) * 2 ^ 32) by ring.
    rewrite Z_mod_plus_full. apply Zplus_mod_idemp_l.
Qed.

(** The alignment tests look at the low bits of [base + offset]. *)
Lemma addr_bits_low (c : mmio_classdev) (k : Z) :
  0 <= k <= 32 ->
  addr_bits c (Z.ones k) = (cdev_base c + cdev_offset c) mod 2 ^ k.
Proof.
  intros Hk. unfold addr_bits.
  rewrite Z.land_ones, u32_s32_add by lia.
  apply (wrap_wrap k 32). assumption.
Qed.

(** C5: [mmio_classdev_register] returns [-EINVAL], with no access to the
    hardware, no device created and nothing else done, whenever [base],
    [entries] or [name] is null, or [size] is none of 1, 2 and 4, or [size]
    is 2 and [base + offset] is odd, or [size] is 4 and [base + offset] is
    no multiple of 4. *)
Theorem register_rejects_invalid_bank (h : host) (parent : Z)
    (mmio_cdev : mmio_classdev) (w : world) :
  cdev_base mmio_cdev = 0 \/ cdev_entries mmio_cdev = None
  \/ cdev_name mmio_cdev = None
  \/ (cdev_size mmio_cdev <> 1 /\ cdev_size mmio_cdev <> 2
      /\ cdev_size mmio_cdev <> 4)
  \/ (cdev_size mmio_cdev = 2
      /\ (cdev_base mmio_cdev + cdev_offset mmio_cdev) mod 2 <> 0)
  \/ (cdev_size mmio_cdev = 4
      /\ (cdev_base mmio_cdev + cdev_offset mmio_cdev) mod 4 <> 0) ->
  mmio_classdev_register h parent mmio_cdev w = Some (- EINVAL, mmio_cdev, w).
Proof.
  intros Hbad. unfold mmio_classdev_register.
  destruct (cdev_entries mmio_cdev) as [entries |] eqn:Hentries; [| reflexivity].
  destruct (cdev_name mmio_cdev) as [name |] eqn:Hname; [| reflexivity].
  destruct (Z.eqb_spec (cdev_base mmio_cdev) 0) as [Hbase | Hbase]; [reflexivity |].
  pose proof (addr_bits_low mmio_cdev 1 ltac:(lia)) as Hodd.
  pose proof (addr_bits_low mmio_cdev 2 ltac:(lia)) as Hquad.
  change (Z.ones 1) with 1 in Hodd. change (Z.ones 2) with 3 in Hquad.
  change (2 ^ 1) with 2 in Hodd. change (2 ^ 2) with 4 in Hquad.
  destruct (Z.eqb_spec (cdev_size mmio_cdev) 1) as [H1 | H1],
           (Z.eqb_spec (cdev_size mmio_cdev) 2) as [H2 | H2],
           (Z.eqb_spec (cdev_size mmio_cdev) 4) as [H4 | H4];
    simpl; try reflexivity; try lia;
    destruct (Z.eqb_spec (addr_bits mmio_cdev 1) 0) as [Ha1 | Ha1];
    destruct (Z.eqb_spec (addr_bits mmio_cdev 3) 0) as [Ha3 | Ha3];
    simpl; try reflexivity;
    exfalso; intuition (try discriminate; try congruence; lia).
Qed.

Lemma register_rejects_invalid_bank_witness :
  mmio_classdev_register willing_host 1
    (mk_classdev (Some "ctrl"%string) 4 (Some [field "speed" 0xFF00]) 2 4096 NullDev)
    empty_world
  = Some (- EINVAL,
          mk_classdev (Some "ctrl"%string) 4 (Some [field "speed" 0xFF00]) 2 4096
                      NullDev,
          empty_world).
Proof.
  apply register_rejects_invalid_bank.
  right. right. right. right. right. split; [reflexivity |].
  vm_compute. discriminate.
Defined.

(** ** Registration: binding the attribute files *)

Lemma exposures_skip (dev : Z) (e : mmio_entry) (es : list mmio_entry) :
  entry_mask e = 0 -> exposures dev (e :: es) = exposures dev es.
Proof.
  intros Hz. unfold exposures. rewrite filter_cons_False; [reflexivity |].
  intros Hnz. contradiction.
Qed.

Lemma exposures_bind (dev : Z) (e : mmio_entry) (es : list mmio_entry) :
  entry_mask e <> 0 ->
  exposures dev (e :: es) = (dev, entry_name e) :: exposures dev es.
Proof.
  intros Hnz. unfold exposures. now rewrite filter_cons_True.
Qed.

Lemma world_eta (w : world) :
  w = mk_world (io w) (sysfs w) (mmio_list w) (trace w).
Proof. now destruct w. Qed.

(** When the host grants every file, the loop runs to its end: the entries
    with a zero mask are passed over with a note, the others are bound. *)
Lemma create_files_all (h : host) (dev : Z) (es : list mmio_entry) :
  forall (i : nat) (w : world),
    (forall j e, es !! j = Some e -> entry_mask e <> 0 ->
       host_create_file h (sysfs w ++ exposures dev (take j es)) dev (entry_name e) = 0) ->
    create_files h dev i es w =
    (RanToEnd, passed <$> es,
     mk_world (io w) (sysfs w ++ exposures dev es) (mmio_list w)
              (trace w ++ loop_events dev i es)).
Proof.
  induction es as [| e es IH]; intros i w Hhost.
  - simpl. rewrite !app_nil_r. now rewrite <- world_eta.
  - simpl. unfold passed at 1.
    destruct (Z.eqb_spec (entry_mask e) 0) as [Hz | Hnz].
    + rewrite IH.
      * simpl. rewrite exposures_skip by assumption.
        now rewrite <- app_assoc.
      * intros j ej Hj Hmask. simpl.
        specialize (Hhost (S j) ej Hj Hmask). simpl in Hhost.
        now rewrite exposures_skip in Hhost.
    + pose proof (Hhost O e eq_refl Hnz) as Hfirst. simpl in Hfirst.
      unfold exposures in Hfirst. simpl in Hfirst. rewrite app_nil_r in Hfirst.
      unfold device_create_file. simpl attr_name. rewrite Hfirst. simpl.
      rewrite IH.
      * simpl. rewrite exposures_bind by assumption.
        now rewrite <- !app_assoc.
      * intros j ej Hj Hmask. simpl.
        specialize (Hhost (S j) ej Hj Hmask). simpl in Hhost.
        rewrite exposures_bind in Hhost by assumption.
        now rewrite <- app_assoc.
Qed.

(** When the host refuses the file of entry [k], after granting the ones
    before it, the loop leaves with [i = k] and the host's answer. *)
Lemma create_files_fails (h : host) (dev : Z) (es : list mmio_entry) :
  forall (i : nat) (w : world) (k : nat) (e : mmio_entry) (ret : Z),
    es !! k = Some e -> entry_mask e <> 0 ->
    (forall j ej, (j < k)%nat -> es !! j = Some ej -> entry_mask ej <> 0 ->
       host_create_file h (sysfs w ++ exposures dev (take j es)) dev (entry_name ej) = 0) ->
    host_create_file h (sysfs w ++ exposures dev (take k es)) dev (entry_name e) = ret ->
    ret <> 0 ->
    create_files h dev i es w =
    (Failed (i + k) ret, (passed <$> take (S k) es) ++ drop (S k) es,
     mk_world (io w) (sysfs w ++ exposures dev (take k es)) (mmio_list w)
              (trace w ++ loop_events dev i (take k es)
                 ++ [EvCreateFile dev (Some (entry_name e)) ret;
                     EvPrintk (LogSysfsFailed (entry_name e));
                     EvPrintk (LogDevErr (entry_name e))])).
Proof.
  induction es as [| e0 es IH]; intros i w k e ret Hk Hmask Hbefore Hhost Hret;
    [discriminate |].
  destruct k as [| k].
  - injection Hk as ->. simpl in Hhost. unfold exposures in Hhost.
    simpl in Hhost. rewrite app_nil_r in Hhost.
    simpl. unfold passed.
    destruct (Z.eqb_spec (entry_mask e) 0) as [Hz | _]; [contradiction |].
    unfold device_create_file. simpl attr_name. rewrite Hhost.
    destruct (Z.eqb_spec ret 0) as [Hr | _]; [contradiction |].
    simpl. rewrite Nat.add_0_r, drop_0. unfold exposures, printk, emit. simpl.
    now rewrite !app_nil_r, <- !app_assoc.
  - simpl in Hk. simpl create_files. rewrite Nat.add_succ_r.
    change (take (S (S k)) (e0 :: es)) with (e0 :: take (S k) es).
    change (drop (S (S k)) (e0 :: es)) with (drop (S k) es).
    change (take (S k) (e0 :: es)) with (e0 :: take k es).
    rewrite fmap_cons. simpl loop_events. unfold passed at 1.
    destruct (Z.eqb_spec (entry_mask e0) 0) as [Hz | Hnz].
    + rewrite (IH (S i) _ k e ret Hk Hmask).
      * simpl. rewrite exposures_skip by assumption.
        now rewrite <- !app_assoc.
      * intros j ej Hj Hlook Hm. simpl.
        specialize (Hbefore (S j) ej ltac:(lia) Hlook Hm). simpl in Hbefore.
        now rewrite exposures_skip in Hbefore.
      * simpl. simpl in Hhost. now rewrite exposures_skip in Hhost.
      * assumption.
    + pose proof (Hbefore O e0 ltac:(lia) eq_refl Hnz) as Hfirst.
      simpl in Hfirst. unfold exposures in Hfirst. simpl in Hfirst.
      rewrite app_nil_r in Hfirst.
      unfold device_create_file. simpl attr_name. rewrite Hfirst. simpl.
      rewrite (IH (S i) _ k e ret Hk Hmask).
      * simpl. rewrite exposures_bind by assumption.
        now rewrite <- !app_assoc.
      * intros j ej Hj Hlook Hm. simpl.
        specialize (Hbefore (S j) ej ltac:(lia) Hlook Hm). simpl in Hbefore.
        rewrite exposures_bind in Hbefore by assumption.
        now rewrite <- app_assoc.
      * simpl. simpl in Hhost. rewrite exposures_bind in Hhost by assumption.
        now rewrite <- app_assoc.
      * assumption.
Qed.

(** ** Registration: the roll back *)

(** A removal that returns was handed a named attribute; it takes the file
    of that name out of the device's directory and leaves the rest. *)
Lemma device_remove_file_keeps (dev : Z) (attr : device_attribute)
    (w w' : world) :
  device_remove_file dev attr w = Some w' ->
  exists n,
    attr_name attr = Some n
    /\ io w' = io w /\ mmio_list w' = mmio_list w
    /\ trace w' = trace w ++ [EvRemoveFile dev (Some n)]
    /\ sysfs w' = filter (fun f => f <> (dev, n)) (sysfs w).
Proof.
  unfold device_remove_file. destruct (attr_name attr) as [n |]; [| discriminate].
  intros [= <-]. exists n. auto.
Qed.

(** A roll back that returns has called [device_remove_file] on the
    entries [i - 1] down to 0, all of them named; it has touched nothing
    but the attribute files, and none of the names is left. *)
Lemma remove_files_inv (dev : Z) (es : list mmio_entry) :
  forall (i : nat) (w w' : world),
    remove_files dev es i w = Some w' ->
    (i <= length es)%nat
    /\ (forall e, e ∈ take i es -> attr_name (entry_attr e) <> None)
    /\ io w' = io w /\ mmio_list w' = mmio_list w
    /\ trace w' = trace w ++ removal_events dev (rev (take i es))
    /\ (forall f, f ∈ sysfs w' -> f ∈ sysfs w)
    /\ (forall e n, e ∈ take i es -> attr_name (entry_attr e) = Some n ->
          (dev, n) ∉ sysfs w').
Proof.
  induction i as [| j IH]; intros w w' Hrun.
  - injection Hrun as <-. rewrite take_0. simpl. rewrite app_nil_r.
    repeat split; auto; try lia.
    + intros e He. now apply not_elem_of_nil in He.
    + intros e n He. now apply not_elem_of_nil in He.
  - simpl in Hrun. destruct (es !! j) as [ej |] eqn:Hj; [| discriminate].
    destruct (device_remove_file dev (entry_attr ej) w) as [w1 |] eqn:Hrem;
      [| discriminate].
    apply device_remove_file_keeps in Hrem
      as (n & Hn & Hio1 & Hlist1 & Htrace1 & Hsys1).
    apply IH in Hrun as (Hlen & Hnamed & Hio & Hlist & Htrace & Hsub & Hgone).
    rewrite (take_S_r es j ej Hj).
    split; [apply lookup_lt_Some in Hj; lia |].
    split.
    { intros e He. apply elem_of_app in He as [He | He]; [now apply Hnamed |].
      apply list_elem_of_singleton in He as ->. now rewrite Hn. }
    split; [now rewrite Hio |]. split; [now rewrite Hlist |].
    split.
    { rewrite Htrace, Htrace1, rev_app_distr. simpl.
      unfold removal_events. rewrite Hn. now rewrite <- app_assoc. }
    split.
    { intros f Hf. apply Hsub in Hf. rewrite Hsys1 in Hf.
      now apply list_elem_of_filter in Hf. }
    intros e n' He Hn'. apply elem_of_app in He as [He | He];
      [now apply (Hgone e) |].
    apply list_elem_of_singleton in He as ->.
    rewrite Hn in Hn'. injection Hn' as <-.
    intros Hin. apply Hsub in Hin. rewrite Hsys1 in Hin.
    apply list_elem_of_filter in Hin as [Hne _]. now apply Hne.
Qed.


(** It has no result when one of them has none. *)
Lemma remove_files_faults (dev : Z) (es : list mmio_entry) :
  forall (i : nat) (w : world) (j : nat) (e : mmio_entry),
    (j < i)%nat -> es !! j = Some e -> attr_name (entry_attr e) = None ->
    remove_files dev es i w = None.
Proof.
  induction i as [| i IH]; intros w j e Hj He Hn; [lia |].
  simpl. destruct (es !! i) as [ei |] eqn:Hi; [| reflexivity].
  unfold device_remove_file.
  destruct (attr_name (entry_attr ei)) as [n |] eqn:Hni; [| reflexivity].
  apply (IH _ j e); try assumption.
  destruct (Nat.eq_dec j i) as [-> | Hne]; [congruence | lia].
Qed.

(** ** Registration as a whole *)

Lemma acceptable_passes (c : mmio_classdev) :
  acceptable c ->
  (cdev_base c =? 0) = false
  /\ negb (cdev_size c =? 1) && negb (cdev_size c =? 2)
     && negb (cdev_size c =? 4) = false
  /\ (cdev_size c =? 2) && negb (addr_bits c 1 =? 0) = false
  /\ (cdev_size c =? 4) && negb (addr_bits c 3 =? 0) = false.
Proof.
  intros (Hbase & Hsize & Heven & Hquad).
  pose proof (addr_bits_low c 1 ltac:(lia)) as Hodd.
  pose proof (addr_bits_low c 2 ltac:(lia)) as Hfour.
  change (Z.ones 1) with 1 in Hodd. change (Z.ones 2) with 3 in Hfour.
  change (2 ^ 1) with 2 in Hodd. change (2 ^ 2) with 4 in Hfour.
  repeat split.
  - now apply Z.eqb_neq.
  - destruct Hsize as [-> | [-> | ->]]; reflexivity.
  - destruct (Z.eqb_spec (cdev_size c) 2) as [H2 | _]; [| reflexivity].
    rewrite Hodd, (Heven H2). reflexivity.
  - destruct (Z.eqb_spec (cdev_size c) 4) as [H4 | _]; [| reflexivity].
    rewrite Hfour, (Hquad H4). reflexivity.
Qed.

(** Past the checks and the creation of the device, the call is the loop
    followed by the insertion into [mmio_list] or by the roll back. *)
Lemma register_created (h : host) (parent : Z) (c : mmio_classdev) (w : world)
    (es : list mmio_entry) (name : string) (dev : Z) :
  cdev_entries c = Some es -> cdev_name c = Some name -> acceptable c ->
  host_device_create h parent name = Created dev ->
  mmio_classdev_register h parent c w =
  let '(x, es', w2) :=
    create_files h dev O es (emit EvInitRwsem (emit (EvDeviceCreate parent name) w)) in
  let c' := with_entries (with_dev c (Dev dev)) es' in
  match x with
  | RanToEnd =>
      Some (0, c',
            printk (LogRegistered name (cdev_base c) (cdev_offset c) (cdev_size c))
              (emit EvListUnlock (list_add_tail c' (emit EvListLock w2))))
  | Failed i ret =>
      match remove_files dev es' i w2 with
      | Some w3 => Some (ret, c', w3)
      | None => None
      end
  end.
Proof.
  intros Hes Hname Hok Hdev. unfold mmio_classdev_register.
  destruct (acceptable_passes c Hok) as (-> & -> & -> & ->).
  rewrite Hes, Hname. unfold device_create. rewrite Hdev. simpl.
  destruct (create_files h dev 0 es _) as [[x es'] w2].
  destruct x; reflexivity.
Qed.

Lemma loop_events_skip_note (dev : Z) (es : list mmio_entry) :
  forall (i j : nat) (e : mmio_entry),
    es !! j = Some e -> entry_mask e = 0 ->
    EvPrintk (LogSkipEntry (i + j) (entry_name e)) ∈ loop_events dev i es.
Proof.
  induction es as [| e0 es IH]; intros i j e Hj Hz; [discriminate |].
  destruct j as [| j]; simpl.
  - injection Hj as ->. rewrite Hz, Nat.add_0_r. simpl. apply list_elem_of_here.
  - apply list_elem_of_further. rewrite Nat.add_succ_r.
    now apply (IH (S i) j e).
Qed.

Lemma exposures_elem (dev : Z) (es : list mmio_entry) (f : Z * string) :
  f ∈ exposures dev es <->
  exists e, f = (dev, entry_name e) /\ entry_mask e <> 0 /\ e ∈ es.
Proof.
  unfold exposures. rewrite list_elem_of_fmap. split.
  - intros (e & -> & He). apply list_elem_of_filter in He as [Hm He]. eauto.
  - intros (e & -> & Hm & He). exists e. split; [reflexivity |].
    now apply list_elem_of_filter.
Qed.

Lemma take_passed (k : nat) (es : list mmio_entry) :
  (k < length es)%nat ->
  take k ((passed <$> take (S k) es) ++ drop (S k) es) = passed <$> take k es.
Proof.
  intros Hk.
  rewrite take_app_le by (rewrite length_fmap, length_take; lia).
  rewrite <- fmap_take, take_take. f_equal. f_equal. lia.
Qed.

Lemma passed_keeps (e : mmio_entry) :
  entry_name (passed e) = entry_name e
  /\ entry_mask (passed e) = entry_mask e
  /\ entry_flags (passed e) = entry_flags e.
Proof. unfold passed. destruct (entry_mask e =? 0); auto. Qed.

Lemma passed_attr_name (e : mmio_entry) :
  entry_mask e <> 0 -> attr_name (entry_attr (passed e)) = Some (entry_name e).
Proof.
  intros Hnz. unfold passed.
  destruct (Z.eqb_spec (entry_mask e) 0); [contradiction | reflexivity].
Qed.

Lemma passed_skipped (e : mmio_entry) : entry_mask e = 0 -> passed e = e.
Proof. intros Hz. unfold passed. now rewrite Hz. Qed.

Lemma fmap_passed {B : Type} (f : mmio_entry -> B) (l : list mmio_entry) :
  (forall e, f (passed e) = f e) -> f <$> (passed <$> l) = f <$> l.
Proof.
  intros Hf. induction l as [| e l IH]; [reflexivity |].
  rewrite !fmap_cons, Hf, IH. reflexivity.
Qed.

Lemma find_entry_unique (l : list mmio_entry) (x : mmio_entry) :
  NoDup (entry_name <$> l) -> x ∈ l ->
  find_entry l (Some (entry_name x)) = Some x.
Proof.
  induction l as [| e l IH]; intros Hnd Hx; [now apply not_elem_of_nil in Hx |].
  rewrite fmap_cons in Hnd. apply NoDup_cons in Hnd as [Hfresh Hnd].
  simpl. apply elem_of_cons in Hx as [-> | Hx].
  - now rewrite bool_decide_eq_true_2.
  - rewrite bool_decide_eq_false_2; [now apply IH |].
    intros [= Heq]. apply Hfresh. rewrite Heq.
    now apply list_elem_of_fmap_2.
Qed.

(** Once the entry is found, the show handler does what a read handler is
    to do. *)
Lemma mmio_value_show_found (fuel : nat) (mmio_cdev : mmio_classdev)
    (attr : device_attribute) (entry : mmio_entry) (buf : string) (w : world) :
  find_entry (default [] (cdev_entries mmio_cdev)) (attr_name attr) = Some entry ->
  mmio_value_show fuel mmio_cdev attr buf w
  = read_handler_contract fuel mmio_cdev entry buf w.
Proof.
  intros Hfind. unfold mmio_value_show, read_handler_contract.
  rewrite Hfind. reflexivity.
Qed.

(** C7: in a registration where the host grants every file, each entry
    with a zero mask is passed over with a note in the log, is no error,
    and keeps the attribute it came with; each entry with a non-zero mask
    gets its attribute file, and no other file appears.  The attribute of
    such a file carries the entry's name, the mode 0644 and the two
    handlers of this driver, so that a read of the file is
    [mmio_get_value] on the entry and a write is [mmio_set_value] on it,
    each behind the entry's permission (the names of a bank being
    different from each other).  The call returns 0 with the bank
    appended to [mmio_list]. *)
Theorem register_skips_zero_masks (h : host) (parent : Z) (c : mmio_classdev)
    (w : world) (es : list mmio_entry) (name : string) (dev : Z) :
  cdev_entries c = Some es -> cdev_name c = Some name -> acceptable c ->
  host_device_create h parent name = Created dev ->
  (forall j e, es !! j = Some e -> entry_mask e <> 0 ->
     host_create_file h (sysfs w ++ exposures dev (take j es)) dev (entry_name e) = 0) ->
  exists c' w',
    mmio_classdev_register h parent c w = Some (0, c', w')
    /\ sysfs w' = sysfs w ++ exposures dev es
    /\ (forall e, e ∈ es -> entry_mask e <> 0 -> (dev, entry_name e) ∈ sysfs w')
    /\ (forall i e, es !! i = Some e -> entry_mask e = 0 ->
          EvPrintk (LogSkipEntry i (entry_name e)) ∈ trace w')
    /\ trace w' = trace w ++ [EvDeviceCreate parent name; EvInitRwsem]
                    ++ loop_events dev 0 es
                    ++ [EvListLock; EvListUnlock;
                        EvPrintk (LogRegistered name (cdev_base c)
                                    (cdev_offset c) (cdev_size c))]
    /\ mmio_list w' = mmio_list w ++ [c']
    /\ cdev_entries c' = Some (passed <$> es)
    /\ cdev_dev c' = Dev dev
    /\ (forall i e, es !! i = Some e -> entry_mask e = 0 ->
          default [] (cdev_entries c') !! i = Some e)
    /\ (forall i e, es !! i = Some e -> entry_mask e <> 0 ->
          exists e',
            default [] (cdev_entries c') !! i = Some e'
            /\ entry_name e' = entry_name e
            /\ entry_mask e' = entry_mask e
            /\ entry_flags e' = entry_flags e
            /\ attr_name (entry_attr e') = Some (entry_name e)
            /\ attr_mode (entry_attr e') = 420
            /\ attr_show (entry_attr e') = Some mmio_value_show_op
            /\ attr_store (entry_attr e') = Some mmio_value_store_op
            /\ (NoDup (entry_name <$> es) ->
                (forall fuel buf w0,
                   dev_attr_show fuel c' (entry_attr e') buf w0
                   = read_handler_contract fuel c' e' buf w0)
                /\ (forall a fuel buf size w0,
                      dev_attr_store a fuel c' (entry_attr e') buf size w0
                      = write_handler_contract a fuel c' e' buf size w0))).
Proof.
  intros Hes Hname Hok Hdev Hhost.
  rewrite (register_created h parent c w es name dev) by assumption.
  rewrite (create_files_all h dev es O
             (emit EvInitRwsem (emit (EvDeviceCreate parent name) w)) Hhost). simpl.
  eexists _, _. split; [reflexivity |]. simpl.
  split; [reflexivity |]. split.
  { intros e He Hm. apply elem_of_app. right. apply exposures_elem. eauto. }
  split.
  { intros i e Hi Hz.
    pose proof (loop_events_skip_note dev es O i e Hi Hz) as Hnote.
    rewrite !elem_of_app. tauto. }
  split; [now rewrite <- !app_assoc |].
  split; [reflexivity |]. split; [reflexivity |]. split; [reflexivity |].
  split.
  { intros i e Hi Hz. rewrite list_lookup_fmap, Hi. simpl.
    now rewrite passed_skipped. }
  intros i e Hi Hnz. exists (populate_attr e).
  assert (Hpassed : passed e = populate_attr e).
  { unfold passed. destruct (Z.eqb_spec (entry_mask e) 0); [contradiction |].
    reflexivity. }
  split; [rewrite list_lookup_fmap, Hi; simpl; now rewrite Hpassed |].
  repeat (split; [reflexivity |]).
  intros Hnd.
  set (c' := with_entries (with_dev c (Dev dev)) (passed <$> es)).
  assert (Hfind : find_entry (default [] (cdev_entries c'))
                    (attr_name (entry_attr (populate_attr e)))
                  = Some (populate_attr e)).
  { simpl. rewrite <- Hpassed.
    replace (entry_name e) with (entry_name (passed e)) by apply passed_keeps.
    apply find_entry_unique.
    - now rewrite fmap_passed by apply passed_keeps.
    - apply list_elem_of_fmap_2. now apply list_elem_of_lookup_2 with i. }
  split.
  - intros fuel buf w0. unfold dev_attr_show. simpl attr_show.
    now apply mmio_value_show_found.
  - intros a fuel buf size w0. unfold dev_attr_store. simpl attr_store.
    now apply mmio_value_store_found.
Qed.

Lemma register_skips_zero_masks_witness :
  let es := [field "run" 1; field "reserved" 0; field "speed" 0xFF00] in
  exists c' w',
    mmio_classdev_register willing_host 1 (sample_bank 4 es) empty_world
    = Some (0, c', w')
    /\ sysfs w' = [(7, "run"%string); (7, "speed"%string)]
    /\ EvPrintk (LogSkipEntry 1 "reserved") ∈ trace w'
    /\ mmio_list w' = [c']
    /\ exists e',
         default [] (cdev_entries c') !! 2%nat = Some e'
         /\ attr_show (entry_attr e') = Some mmio_value_show_op
         /\ attr_store (entry_attr e') = Some mmio_value_store_op.
Proof.
  cbv zeta.
  destruct (register_skips_zero_masks willing_host 1
              (sample_bank 4 [field "run" 1; field "reserved" 0; field "speed" 0xFF00])
              empty_world
              [field "run" 1; field "reserved" 0; field "speed" 0xFF00]
              "ctrl" 7 eq_refl eq_refl)
    as (c' & w' & Hreg & Hsysfs & _ & Hnote & _ & Hlist & _ & _ & _ & Hbound).
  - unfold acceptable. simpl. repeat split; try lia; try discriminate.
  - reflexivity.
  - intros j e _ _. reflexivity.
  - exists c', w'. split; [exact Hreg |].
    split; [rewrite Hsysfs; reflexivity |].
    split; [apply (Hnote 1%nat (field "reserved" 0)); reflexivity |].
    split; [exact Hlist |].
    destruct (Hbound 2%nat (field "speed" 0xFF00) eq_refl ltac:(simpl; lia))
      as (e' & Hlook & _ & _ & _ & _ & _ & Hshow & Hstore & _).
    exists e'. auto.
Defined.

(** C6: the roll back of [mmio_classdev_register] goes over every entry
    below the one that failed, the ones the loop skipped included.  When
    the host refuses the attribute file of entry [k], having granted the
    ones before it, and an entry below [k] has a zero mask and an attribute
    that was never given a name, the files bound so far are in place when
    the roll back starts, [device_remove_file] is handed the nameless
    attribute, and the call ends there: the host's answer is not
    returned. *)
Theorem register_roll_back_reaches_skipped_entry (h : host) (parent : Z)
    (c : mmio_classdev) (w : world) (es : list mmio_entry) (name : string)
    (dev : Z) (k : nat) (e : mmio_entry) (ret : Z) (j : nat) (ej : mmio_entry) :
  cdev_entries c = Some es -> cdev_name c = Some name -> acceptable c ->
  host_device_create h parent name = Created dev ->
  es !! k = Some e -> entry_mask e <> 0 ->
  (forall i ei, (i < k)%nat -> es !! i = Some ei -> entry_mask ei <> 0 ->
     host_create_file h (sysfs w ++ exposures dev (take i es)) dev (entry_name ei) = 0) ->
  host_create_file h (sysfs w ++ exposures dev (take k es)) dev (entry_name e) = ret ->
  ret <> 0 ->
  (j < k)%nat -> es !! j = Some ej -> entry_mask ej = 0 ->
  attr_name (entry_attr ej) = None ->
  exists es' w2,
    create_files h dev O es (emit EvInitRwsem (emit (EvDeviceCreate parent name) w))
    = (Failed k ret, es', w2)
    /\ sysfs w2 = sysfs w ++ exposures dev (take k es)
    /\ es' !! j = Some ej
    /\ remove_files dev es' k w2 = None
    /\ mmio_classdev_register h parent c w = None.
Proof.
  intros Hes Hname Hok Hdev Hk Hmask Hbefore Hhost Hret Hj Hlook Hz Hnull.
  rewrite (register_created h parent c w es name dev) by assumption.
  rewrite (create_files_fails h dev es O
             (emit EvInitRwsem (emit (EvDeviceCreate parent name) w))
             k e ret Hk Hmask Hbefore Hhost Hret).
  simpl.
  assert (Hlen : (k < length es)%nat) by (apply lookup_lt_is_Some; eauto).
  set (es' := (passed <$> take (S k) es) ++ drop (S k) es).
  set (w2 := mk_world _ _ _ _).
  assert (Hj' : es' !! j = Some ej).
  { unfold es'. rewrite lookup_app_l by (rewrite length_fmap, length_take; lia).
    rewrite list_lookup_fmap, lookup_take_lt by lia. rewrite Hlook. simpl.
    now rewrite passed_skipped. }
  assert (Hfault : remove_files dev es' k w2 = None)
    by (now apply (remove_files_faults dev es' k w2 j ej)).
  exists es', w2. rewrite Hfault. auto.
Qed.

Lemma register_roll_back_reaches_skipped_entry_witness :
  let es := [field "run" 1; field "reserved" 0; field "speed" 0xFF00] in
  mmio_classdev_register (refusing_host "speed" (-17)) 1 (sample_bank 4 es)
                         empty_world = None.
Proof.
  cbv zeta.
  destruct (register_roll_back_reaches_skipped_entry
              (refusing_host "speed" (-17)) 1
              (sample_bank 4 [field "run" 1; field "reserved" 0; field "speed" 0xFF00])
              empty_world
              [field "run" 1; field "reserved" 0; field "speed" 0xFF00]
              "ctrl" 7 2 (field "speed" 0xFF00) (-17) 1 (field "reserved" 0)
              eq_refl eq_refl)
    as (es' & w2 & _ & _ & _ & _ & Hreg).
  - unfold acceptable. simpl. repeat split; try lia; try discriminate.
  - reflexivity.
  - reflexivity.
  - simpl. lia.
  - intros i ei Hi Hlook Hm.
    destruct i as [| [| i]]; [| | lia]; injection Hlook as <-; reflexivity.
  - reflexivity.
  - lia.
  - lia.
  - reflexivity.
  - reflexivity.
  - reflexivity.
  - exact Hreg.
Defined.



(** * More of the driver *)

(** ** A field and its neighbours *)

Lemma masks_apart (ma mb : Z) :
  Z.land ma mb = 0 -> forall i, Z.testbit ma i && Z.testbit mb i = false.
Proof. intros Hd i. rewrite <- Z.land_spec, Hd. apply Z.bits_0. Qed.

Lemma inside_mask_bit (m x : Z) :
  Z.land x m = x -> forall i, Z.testbit x i = true -> Z.testbit m i = true.
Proof.
  intros Hfit i Hx. rewrite <- Hfit, Z.land_spec in Hx.
  now apply andb_prop in Hx.
Qed.

(** Shifting a field's content down and up again loses nothing: below the
    lowest bit of the mask there is nothing to lose. *)
Lemma field_back (m x : Z) :
  0 < m ->
  (Z.land x m ≫ trailing_zero_count m) ≪ trailing_zero_count m = Z.land x m.
Proof.
  intros Hm. pose proof (trailing_zero_count_nonneg m) as Htz.
  destruct (trailing_zero_count_spec m Hm) as [_ Hlow].
  apply Z.bits_inj'. intros i Hi. rewrite Z.shiftl_spec by assumption.
  destruct (Z.lt_ge_cases i (trailing_zero_count m)) as [Hlt | Hge].
  - rewrite Z.testbit_neg_r by lia.
    rewrite Z.land_spec, Hlow by lia. now rewrite andb_false_r.
  - rewrite Z.shiftr_spec by lia. f_equal. lia.
Qed.

Lemma merge_back (k old m : Z) :
  0 <= k -> 0 <= old < 2 ^ k ->
  wrap k (Z.lor (Z.land old (Z.lnot m)) (Z.land old m)) = old.
Proof.
  intros Hk Hold.
  replace (Z.lor (Z.land old (Z.lnot m)) (Z.land old m)) with old;
    [now apply wrap_small |].
  apply Z.bits_inj'. intros i Hi.
  rewrite Z.lor_spec, !Z.land_spec, Z.lnot_spec by assumption.
  destruct (Z.testbit old i), (Z.testbit m i); reflexivity.
Qed.

Lemma register_value_after_get (parent : mmio_classdev) (w : world) :
  register_value parent
    (up_read (emit (EvRawRead (access_width parent) (reg_addr parent))
                   (down_read w)))
  = register_value parent w.
Proof. unfold up_read, down_read. now rewrite !register_value_emit. Qed.

(** X1: what [mmio_get_value] returns can always be handed back to
    [mmio_set_value]: it fits the field, the call succeeds, and the
    register holds what it held before the two calls. *)
Theorem get_then_set_restores (a : abi) (fuel : nat) (parent : mmio_classdev)
    (entry : mmio_entry) (w : world) :
  0 < entry_mask entry < 2 ^ 32 -> (31 <= fuel)%nat ->
  exists r w1 w2,
    mmio_get_value fuel (Some parent) (Some entry) w = Some (r, w1)
    /\ Z.land (r ≪ trailing_zero_count (entry_mask entry)) (entry_mask entry)
       = r ≪ trailing_zero_count (entry_mask entry)
    /\ mmio_set_value a fuel (Some parent) (Some entry) r w1 = Some (0, w2)
    /\ register_value parent w2 = register_value parent w.
Proof.
  intros Hm Hfuel.
  rewrite mmio_get_value_spec by assumption.
  set (m := entry_mask entry) in *.
  set (r := Z.land (register_value parent w) m ≫ trailing_zero_count m).
  assert (Hback : r ≪ trailing_zero_count m = Z.land (register_value parent w) m)
    by (apply field_back; lia).
  assert (Hfit : Z.land (r ≪ trailing_zero_count m) m = r ≪ trailing_zero_count m).
  { rewrite Hback, <- Z.land_assoc, Z.land_diag. reflexivity. }
  eexists r, _, _. split; [reflexivity |]. split; [exact Hfit |].
  rewrite mmio_set_value_fits by (try assumption; fold m; lia).
  split; [reflexivity |].
  rewrite register_value_after_write, register_value_after_get.
  fold m. rewrite Hback. apply merge_back; [width_cases parent |].
  apply register_value_range.
Qed.

Lemma get_then_set_restores_witness :
  exists r w1 w2,
    mmio_get_value 31 (Some (sample_bank 2 [])) (Some (field "mode" 0x0F00))
                   (world_with 4096 0x1234) = Some (r, w1)
    /\ mmio_set_value LP64 31 (Some (sample_bank 2 [])) (Some (field "mode" 0x0F00))
                      r w1 = Some (0, w2)
    /\ register_value (sample_bank 2 []) w2 = 0x1234.
Proof.
  destruct (get_then_set_restores LP64 31 (sample_bank 2 []) (field "mode" 0x0F00)
              (world_with 4096 0x1234)) as (r & w1 & w2 & Hget & _ & Hset & Hreg).
  - split; reflexivity.
  - lia.
  - exists r, w1, w2. split; [exact Hget |]. split; [exact Hset |].
    rewrite Hreg. reflexivity.
Defined.

(** Every call of [mmio_set_value] that returns 0 has written the old
    register with the field replaced by something that lies inside the
    mask, cut to the access width. *)
Lemma mmio_set_value_success (a : abi) (fuel : nat) (parent : mmio_classdev)
    (entry : mmio_entry) (v : Z) (w w1 : world) :
  mmio_set_value a fuel (Some parent) (Some entry) v w = Some (0, w1) ->
  exists sh,
    Z.land sh (entry_mask entry) = sh
    /\ w1 = up_write
              (raw_write (access_width parent)
                 (wrap (8 * access_width parent)
                    (Z.lor (Z.land (register_value parent w)
                                   (Z.lnot (entry_mask entry))) sh))
                 (reg_addr parent)
                 (emit (EvRawRead (access_width parent) (reg_addr parent))
                       (down_write w))).
Proof.
  unfold mmio_set_value. rewrite read_reg_eq.
  destruct (if negb (v =? 0)
            then match set_loop a fuel (entry_mask entry) v with
                 | Some (_, value) => Some value
                 | None => None
                 end
            else Some v) as [sh |]; [| discriminate].
  destruct (Z.eqb_spec (Z.land sh (entry_mask entry)) sh) as [Hfit | Hover];
    simpl; [| discriminate].
  intros [= <-]. exists sh. split; [exact Hfit |].
  rewrite write_reg_eq, modify_trunc by (width_cases parent).
  rewrite <- (register_value_emit parent EvDownWrite w), register_value_eq.
  reflexivity.
Qed.

(** X2: a call of [mmio_set_value] that returns 0, whatever the value and
    however it came to be accepted, does not change what a field with a
    disjoint mask reads. *)
Theorem set_keeps_other_field (a : abi) (fuel_set fuel : nat)
    (parent : mmio_classdev) (fa fb : mmio_entry) (v : Z) (w w1 : world) :
  0 < entry_mask fb < 2 ^ 32 ->
  Z.land (entry_mask fa) (entry_mask fb) = 0 ->
  mmio_set_value a fuel_set (Some parent) (Some fa) v w = Some (0, w1) ->
  (31 <= fuel)%nat ->
  exists r w2 w3,
    mmio_get_value fuel (Some parent) (Some fb) w = Some (r, w2)
    /\ mmio_get_value fuel (Some parent) (Some fb) w1 = Some (r, w3).
Proof.
  intros Hmb Hapart Hset Hfuel.
  apply mmio_set_value_success in Hset as (sh & Hfit & ->).
  eexists _, _, _.
  split; [now apply mmio_get_value_spec |].
  rewrite mmio_get_value_spec, register_value_after_write by assumption.
  f_equal. f_equal. f_equal.
  assert (Hw : 0 <= 8 * access_width parent) by width_cases parent.
  pose proof (register_value_range parent w) as Hold.
  apply Z.bits_inj'. intros i Hi.
  rewrite !Z.land_spec, testbit_wrap, Z.lor_spec, Z.land_spec, Z.lnot_spec by lia.
  pose proof (masks_apart _ _ Hapart i) as Hd.
  pose proof (inside_mask_bit _ _ Hfit i) as Hin.
  destruct (Z.testbit (entry_mask fb) i) eqn:Hb; [| now rewrite !andb_false_r].
  rewrite andb_true_r in Hd. rewrite Hd in *.
  destruct (Z.testbit sh i) eqn:Hv;
    [specialize (Hin eq_refl); discriminate |].
  rewrite !andb_true_r, orb_false_r.
  destruct (Z.ltb_spec i (8 * access_width parent)); [reflexivity |].
  simpl. symmetry. apply (testbit_high (8 * access_width parent)); lia.
Qed.

(** The example is a call that is accepted only because the shift drops
    the top bit of the value. *)
Lemma set_keeps_other_field_witness :
  exists w1 w2 w3,
    mmio_set_value ILP32 31 (Some (sample_bank 4 [])) (Some (field "bit1" 2))
                   0x80000001 (world_with 4096 0xABCD1234) = Some (0, w1)
    /\ mmio_get_value 31 (Some (sample_bank 4 [])) (Some (field "mode" 0xF0000))
                      (world_with 4096 0xABCD1234) = Some (0xD, w2)
    /\ mmio_get_value 31 (Some (sample_bank 4 [])) (Some (field "mode" 0xF0000))
                      w1 = Some (0xD, w3).
Proof.
  destruct (mmio_set_value ILP32 31 (Some (sample_bank 4 [])) (Some (field "bit1" 2))
              0x80000001 (world_with 4096 0xABCD1234))
    as [[ret w1] |] eqn:Hset; [| vm_compute in Hset; discriminate Hset].
  assert (Hret : ret = 0).
  { pose proof (f_equal (fun o => (fun p : Z * world => p.1) <$> o) Hset) as Hfst.
    vm_compute in Hfst. now injection Hfst as <-. }
  subst ret.
  destruct (set_keeps_other_field ILP32 31 31 (sample_bank 4 [])
              (field "bit1" 2) (field "mode" 0xF0000) 0x80000001
              (world_with 4096 0xABCD1234) w1)
    as (r & w2 & w3 & Hget & Hget1).
  - simpl. lia.
  - reflexivity.
  - exact Hset.
  - lia.
  - assert (Hr : r = 0xD).
    { pose proof (f_equal (fun o => (fun p : Z * world => p.1) <$> o) Hget) as Hfst.
      vm_compute in Hfst. now injection Hfst as <-. }
    subst r. exists w1, w2, w3. auto.
Defined.

(** X3: two writes to fields with disjoint masks end in the same register
    content whichever comes first. *)
Theorem set_disjoint_fields_commute (a : abi) (fuel : nat)
    (parent : mmio_classdev) (fa fb : mmio_entry) (va vb : Z) (w : world) :
  0 <= entry_mask fa < 2 ^ 32 -> 0 <= entry_mask fb < 2 ^ 32 ->
  Z.land (entry_mask fa) (entry_mask fb) = 0 ->
  Z.land (va ≪ trailing_zero_count (entry_mask fa)) (entry_mask fa)
    = va ≪ trailing_zero_count (entry_mask fa) ->
  Z.land (vb ≪ trailing_zero_count (entry_mask fb)) (entry_mask fb)
    = vb ≪ trailing_zero_count (entry_mask fb) ->
  (31 <= fuel)%nat ->
  exists wa wab wb wba,
    mmio_set_value a fuel (Some parent) (Some fa) va w = Some (0, wa)
    /\ mmio_set_value a fuel (Some parent) (Some fb) vb wa = Some (0, wab)
    /\ mmio_set_value a fuel (Some parent) (Some fb) vb w = Some (0, wb)
    /\ mmio_set_value a fuel (Some parent) (Some fa) va wb = Some (0, wba)
    /\ register_value parent wab = register_value parent wba.
Proof.
  intros Hma Hmb Hapart Hfa Hfb Hfuel.
  eexists _, _, _, _.
  split; [now apply mmio_set_value_fits |].
  split; [now apply mmio_set_value_fits |].
  split; [now apply mmio_set_value_fits |].
  split; [now apply mmio_set_value_fits |].
  rewrite !register_value_after_write.
  assert (Hw : 0 <= 8 * access_width parent) by width_cases parent.
  apply Z.bits_inj'. intros i Hi.
  rewrite !testbit_wrap, !Z.lor_spec, !Z.land_spec, !testbit_wrap, !Z.lor_spec,
    !Z.land_spec, !Z.lnot_spec by lia.
  pose proof (masks_apart _ _ Hapart i) as Hd.
  pose proof (inside_mask_bit _ _ Hfa i) as Hina.
  pose proof (inside_mask_bit _ _ Hfb i) as Hinb.
  destruct (Z.testbit (entry_mask fa) i),
           (Z.testbit (entry_mask fb) i); try discriminate;
    destruct (Z.testbit (va ≪ trailing_zero_count (entry_mask fa)) i);
    try (specialize (Hina eq_refl); discriminate);
    destruct (Z.testbit (vb ≪ trailing_zero_count (entry_mask fb)) i);
    try (specialize (Hinb eq_refl); discriminate);
    destruct (i <? 8 * access_width parent),
             (Z.testbit (register_value parent w) i); reflexivity.
Qed.

Lemma set_disjoint_fields_commute_witness :
  exists wa wab wb wba,
    mmio_set_value ILP32 31 (Some (sample_bank 4 [])) (Some (field "speed" 0xFF00))
                   0x2A (world_with 4096 0xABCD1234) = Some (0, wa)
    /\ mmio_set_value ILP32 31 (Some (sample_bank 4 [])) (Some (field "mode" 0xF0000))
                      0x5 wa = Some (0, wab)
    /\ mmio_set_value ILP32 31 (Some (sample_bank 4 [])) (Some (field "mode" 0xF0000))
                      0x5 (world_with 4096 0xABCD1234) = Some (0, wb)
    /\ mmio_set_value ILP32 31 (Some (sample_bank 4 [])) (Some (field "speed" 0xFF00))
                      0x2A wb = Some (0, wba)
    /\ register_value (sample_bank 4 []) wab = register_value (sample_bank 4 []) wba.
Proof.
  apply (set_disjoint_fields_commute ILP32 31 (sample_bank 4 [])
           (field "speed" 0xFF00) (field "mode" 0xF0000) 0x2A 0x5
           (world_with 4096 0xABCD1234)).
  - simpl. lia.
  - simpl. lia.
  - reflexivity.
  - reflexivity.
  - reflexivity.
  - lia.
Defined.

(** ** Contiguous fields *)

Lemma trailing_zero_count_unique (m n : Z) :
  0 < m -> 0 <= n -> Z.testbit m n = true ->
  (forall i, 0 <= i < n -> Z.testbit m i = false) ->
  trailing_zero_count m = n.
Proof.
  intros Hm Hn Hset Hlow.
  destruct (trailing_zero_count_spec m Hm) as [Hset' Hlow'].
  pose proof (trailing_zero_count_nonneg m) as Htz.
  destruct (Z.lt_trichotomy (trailing_zero_count m) n) as [Hlt | [Heq | Hgt]].
  - rewrite Hlow in Hset' by lia. discriminate.
  - assumption.
  - rewrite Hlow' in Hset by lia. discriminate.
Qed.

Lemma ones_shifted (k s : Z) :
  0 < k -> 0 <= s ->
  0 < Z.ones k ≪ s < 2 ^ (k + s)
  /\ trailing_zero_count (Z.ones k ≪ s) = s.
Proof.
  intros Hk Hs.
  assert (Hpos : 0 < Z.ones k ≪ s < 2 ^ (k + s)).
  { rewrite Z.shiftl_mul_pow2, Z.ones_equiv, Z.pow_add_r by lia.
    assert (2 <= 2 ^ k) by (apply (Z.pow_le_mono_r 2 1); lia).
    assert (0 < 2 ^ s) by (apply Z.pow_pos_nonneg; lia).
    nia. }
  split; [exact Hpos |].
  apply trailing_zero_count_unique; try lia.
  - rewrite Z.shiftl_spec, Z.sub_diag by lia. apply Z.ones_spec_low. lia.
  - intros i Hi. apply Z.shiftl_spec_low. lia.
Qed.

(** X4: a field of [k] contiguous bits takes exactly the values below [2 ^ k]:
    [mmio_set_value] returns 0 for them and [-EOVERFLOW] for every larger
    value whose shift stays inside [unsigned long]. *)
Theorem set_contiguous_field_range (a : abi) (fuel : nat)
    (parent : mmio_classdev) (entry : mmio_entry) (k s v : Z) (w : world) :
  0 < k -> 0 <= s -> k + s <= 32 ->
  entry_mask entry = Z.ones k ≪ s ->
  0 <= v -> v ≪ s < 2 ^ BITS_PER_LONG a ->
  (31 <= fuel)%nat ->
  exists r w',
    mmio_set_value a fuel (Some parent) (Some entry) v w = Some (r, w')
    /\ (v < 2 ^ k -> r = 0)
    /\ (2 ^ k <= v -> r = - EOVERFLOW).
Proof.
  intros Hk Hs Hks Hmask Hv Hnowrap Hfuel.
  destruct (ones_shifted k s Hk Hs) as [Hrange Htz].
  assert (Hm32 : 0 <= entry_mask entry < 2 ^ 32).
  { rewrite Hmask. split; [lia |].
    apply Z.lt_le_trans with (2 ^ (k + s)); [lia |].
    apply Z.pow_le_mono_r; lia. }
  assert (Hvs : v <= v ≪ s).
  { rewrite Z.shiftl_mul_pow2 by lia.
    assert (1 <= 2 ^ s) by (apply (Z.pow_le_mono_r 2 0); lia). nia. }
  rewrite mmio_set_value_spec; [| assumption | lia | left; rewrite Hmask; lia | assumption].
  cbv zeta. rewrite Hmask, Htz. unfold ulong.
  rewrite wrap_small by lia.
  rewrite <- Z.shiftl_land, Z.land_ones by lia.
  destruct (Z.eqb_spec ((v mod 2 ^ k) ≪ s) (v ≪ s)) as [Heq | Hne];
    eexists _, _; (split; [reflexivity |]); split; intros Hcmp;
    try reflexivity; exfalso.
  - rewrite !Z.shiftl_mul_pow2 in Heq by lia.
    apply Z.mul_reg_r in Heq; [| apply Z.pow_nonzero; lia].
    pose proof (Z.mod_pos_bound v (2 ^ k) ltac:(lia)). lia.
  - apply Hne. now rewrite Z.mod_small by lia.
Qed.

Lemma set_contiguous_field_range_witness :
  exists w',
    mmio_set_value ILP32 31 (Some (sample_bank 4 [])) (Some (field "speed" 0xFF00))
                   0x100 (world_with 4096 0xABCD1234) = Some (- EOVERFLOW, w').
Proof.
  destruct (set_contiguous_field_range ILP32 31 (sample_bank 4 [])
              (field "speed" 0xFF00) 8 8 0x100 (world_with 4096 0xABCD1234))
    as (r & w' & Hset & _ & Hover); try lia; try reflexivity.
  exists w'. rewrite Hset, Hover by lia. reflexivity.
Defined.

(** ** The show handler *)

Lemma string_app_assoc (s t u : string) :
  ((s ++ t) ++ u)%string = (s ++ (t ++ u))%string.
Proof.
  induction s as [| c s IH]; [reflexivity |].
  change (String c ((s ++ t) ++ u)%string = String c (s ++ (t ++ u))%string).
  now rewrite IH.
Qed.

Lemma string_app_length (s t : string) :
  String.length (s ++ t)%string = (String.length s + String.length t)%nat.
Proof.
  induction s as [| c s IH]; [reflexivity |].
  change (S (String.length (s ++ t)%string)
          = S (String.length s + String.length t)).
  now rewrite IH.
Qed.

Lemma digit_char_code (d : Z) : 0 <= d <= 9 -> char_code (digit_char d) = 48 + d.
Proof.
  intros Hd. unfold char_code, digit_char.
  rewrite N_ascii_embedding by lia. lia.
Qed.

Lemma digit_char_is_digit (d : Z) :
  0 <= d <= 9 -> is_digit (digit_char d) = true /\ digit_val (digit_char d) = d.
Proof.
  intros Hd. unfold is_digit, digit_val. rewrite digit_char_code by assumption.
  split; [| lia].
  apply andb_true_intro. split; apply Z.leb_le; lia.
Qed.

Lemma put_dec_app (fuel : nat) :
  forall (n : Z) (acc : string),
    put_dec fuel n acc = (put_dec fuel n EmptyString ++ acc)%string.
Proof.
  induction fuel as [| fuel IH]; intros n acc; [reflexivity |].
  simpl. destruct (n / 10 =? 0); [reflexivity |].
  rewrite IH, (IH _ (String _ EmptyString)), string_app_assoc. reflexivity.
Qed.

Lemma put_dec_digits (fuel : nat) :
  forall (n : Z) (acc : string),
    all_digits acc = true -> all_digits (put_dec fuel n acc) = true.
Proof.
  induction fuel as [| fuel IH]; intros n acc Hacc; [assumption |].
  assert (Hstep : all_digits (String (digit_char (n mod 10)) acc) = true).
  { simpl. rewrite Hacc, andb_true_r.
    apply digit_char_is_digit. pose proof (Z.mod_pos_bound n 10). lia. }
  simpl. destruct (n / 10 =? 0); [exact Hstep | now apply IH].
Qed.

Lemma put_dec_length (fuel : nat) :
  forall (n : Z) (acc : string),
    (String.length acc + Nat.min 1 fuel <= String.length (put_dec fuel n acc)
     <= String.length acc + fuel)%nat.
Proof.
  induction fuel as [| fuel IH]; intros n acc; [simpl; lia |].
  simpl put_dec. destruct (n / 10 =? 0); [simpl; lia |].
  specialize (IH (n / 10) (String (digit_char (n mod 10)) acc)).
  simpl String.length in IH. lia.
Qed.

Lemma decimal_from_shift (s : string) :
  forall x, decimal_from x s
            = x * 10 ^ Z.of_nat (String.length s) + decimal_from 0 s.
Proof.
  induction s as [| c s IH]; intros x; simpl decimal_from.
  - simpl. lia.
  - rewrite IH, (IH (0 * 10 + digit_val c)).
    change (String.length (String c s)) with (S (String.length s)).
    rewrite Nat2Z.inj_succ, Z.pow_succ_r by lia. ring.
Qed.

(** The digits [put_dec] writes are the decimal form of the number. *)
Lemma put_dec_value (fuel : nat) :
  forall (n : Z) (acc : string),
    0 <= n < 10 ^ Z.of_nat fuel ->
    decimal_from 0 (put_dec fuel n acc)
    = n * 10 ^ Z.of_nat (String.length acc) + decimal_from 0 acc.
Proof.
  induction fuel as [| fuel IH]; intros n acc Hn.
  - simpl in *. assert (n = 0) by lia. subst n. lia.
  - rewrite Nat2Z.inj_succ, Z.pow_succ_r in Hn by lia.
    pose proof (Z.mod_pos_bound n 10 ltac:(lia)) as Hd.
    pose proof (Z.div_mod n 10 ltac:(lia)) as Hdm.
    destruct (digit_char_is_digit (n mod 10) ltac:(lia)) as [_ Hval].
    simpl put_dec. destruct (Z.eqb_spec (n / 10) 0) as [Hq | Hq].
    + simpl decimal_from. rewrite Hval, decimal_from_shift. f_equal. nia.
    + rewrite IH by (split; [apply Z.div_pos; lia | apply Z.div_lt_upper_bound; lia]).
      simpl decimal_from. rewrite Hval, (decimal_from_shift acc (0 * 10 + n mod 10)).
      change (String.length (String (digit_char (n mod 10)) acc))
        with (S (String.length acc)).
      rewrite Nat2Z.inj_succ, Z.pow_succ_r by lia. nia.
Qed.

Lemma digits_prefix_app (d t : string) :
  all_digits d = true ->
  (t = EmptyString \/ exists c t', t = String c t' /\ is_digit c = false) ->
  digits_prefix (d ++ t) = d.
Proof.
  intros Hd Ht. induction d as [| c d IH].
  - change (digits_prefix t = EmptyString).
    destruct Ht as [-> | (c & t' & -> & Hc)]; [reflexivity |].
    simpl. now rewrite Hc.
  - simpl in Hd. apply andb_prop in Hd as [Hc Hd].
    change (digits_prefix (String c (d ++ t)) = String c d).
    simpl. rewrite Hc, IH by assumption. reflexivity.
Qed.

(** What [%u\n] writes for an [unsigned int] reads back as the same
    number, and the store handler takes the whole of it. *)
Lemma sprintf_parses_back (v : Z) :
  0 <= v < 2 ^ 32 ->
  decimal_value (digits_prefix (sprintf_u_nl v)) = v
  /\ consumed_length (sprintf_u_nl v)
     = Z.of_nat (String.length (sprintf_u_nl v)).
Proof.
  intros Hv. unfold sprintf_u_nl. rewrite put_dec_app.
  assert (Hd : all_digits (put_dec 10 v EmptyString) = true)
    by now apply put_dec_digits.
  split.
  - rewrite digits_prefix_app; [| assumption |].
    + unfold decimal_value. rewrite put_dec_value by (simpl; lia).
      simpl. lia.
    + right. exists "010"%char, EmptyString. split; reflexivity.
  - apply consumed_all_iff.
    exists (put_dec 10 v EmptyString), (String "010" EmptyString).
    split; [reflexivity |]. split; [assumption |].
    right. exists "010"%char. split; reflexivity.
Qed.

Lemma get_value_range (parent : mmio_classdev) (m : Z) (w : world) :
  0 <= m < 2 ^ 32 ->
  0 <= Z.land (register_value parent w) m ≫ trailing_zero_count m < 2 ^ 32.
Proof.
  intros Hm. pose proof (trailing_zero_count_nonneg m) as Htz.
  pose proof (register_value_range parent w) as Hreg.
  assert (Hland : 0 <= Z.land (register_value parent w) m < 2 ^ 32).
  { apply (inside_mask_range 32 m); [lia | assumption |].
    now rewrite <- Z.land_assoc, Z.land_diag. }
  rewrite Z.shiftr_div_pow2 by assumption.
  assert (0 < 2 ^ trailing_zero_count m) by (apply Z.pow_pos_nonneg; lia).
  split; [apply Z.div_pos; lia |].
  apply Z.le_lt_trans with (Z.land (register_value parent w) m); [| lia].
  apply Z.div_le_upper_bound; [lia |]. nia.
Qed.

Lemma sprintf_digits (v : Z) :
  0 <= v < 2 ^ 32 ->
  digits_prefix (sprintf_u_nl v) = put_dec 10 v EmptyString
  /\ String.length (sprintf_u_nl v)
     = S (String.length (put_dec 10 v EmptyString)).
Proof.
  intros Hv. unfold sprintf_u_nl. rewrite put_dec_app. split.
  - apply digits_prefix_app; [now apply put_dec_digits |].
    right. exists "010"%char, EmptyString. split; reflexivity.
  - rewrite string_app_length. simpl. lia.
Qed.

(** X5: [mmio_value_show] only reads.  It either refuses with [-EINVAL] or
    [-EPERM], leaving buffer and world alone, or writes between 2 and 11
    characters and returns their number; no register changes and nothing
    is written to the hardware. *)
Theorem value_show_only_reads (fuel : nat) (mmio_cdev : mmio_classdev)
    (attr : device_attribute) (buf : string) (w : world)
    (r : Z) (out : string) (w' : world) :
  mmio_value_show fuel mmio_cdev attr buf w = Some (r, out, w') ->
  io w' = io w /\ sysfs w' = sysfs w /\ mmio_list w' = mmio_list w
  /\ written_values (trace w') = written_values (trace w)
  /\ ((r = - EINVAL \/ r = - EPERM) /\ out = buf /\ w' = w
      \/ r = Z.of_nat (String.length out) /\ 2 <= r <= 11).
Proof.
  unfold mmio_value_show. intros Hshow.
  destruct (find_entry _ _) as [entry |].
  - destruct (Z.land (entry_flags entry) MMIO_ENTRY_READ =? 0).
    + injection Hshow as <- <- <-. repeat split; auto.
    + unfold mmio_get_value in Hshow. rewrite read_reg_eq in Hshow.
      destruct (get_loop fuel _ _) as [[m reg] |]; [| discriminate].
      injection Hshow as <- <- <-. repeat split.
      * unfold written_values. simpl. rewrite !omap_app. simpl.
        now rewrite !app_nil_r.
      * right. split; [reflexivity |].
        pose proof (put_dec_length 10 reg (String "010" EmptyString)) as Hlen.
        change (String.length (String "010" EmptyString)) with 1%nat in Hlen.
        unfold sprintf_u_nl. lia.
  - injection Hshow as <- <- <-. repeat split; auto.
Qed.

Lemma value_show_only_reads_witness :
  exists out w',
    mmio_value_show 31 (sample_bank 4 [field "speed" 0xFF00])
      (entry_attr (populate_attr (field "speed" 0xFF00))) EmptyString
      (world_with 4096 0xABCD1234) = Some (3, out, w')
    /\ io w' = io (world_with 4096 0xABCD1234).
Proof.
  eexists _, _. split; [reflexivity |].
  eapply (value_show_only_reads 31 (sample_bank 4 [field "speed" 0xFF00])
            (entry_attr (populate_attr (field "speed" 0xFF00))) EmptyString
            (world_with 4096 0xABCD1234)).
  reflexivity.
Defined.

(** X6: on a readable field with a non-zero mask, [mmio_value_show] writes the
    decimal text of what [mmio_get_value] returns and a new line, and
    returns the length; [simple_strtoul] reads the same number back from
    it and stops at the new line. *)
Theorem value_show_parses_back (a : abi) (fuel : nat)
    (mmio_cdev : mmio_classdev) (attr : device_attribute) (entry : mmio_entry)
    (buf : string) (w : world) :
  find_entry (default [] (cdev_entries mmio_cdev)) (attr_name attr) = Some entry ->
  Z.land (entry_flags entry) MMIO_ENTRY_READ <> 0 ->
  0 < entry_mask entry < 2 ^ 32 -> (31 <= fuel)%nat ->
  exists value text w',
    mmio_get_value fuel (Some mmio_cdev) (Some entry) w = Some (value, w')
    /\ mmio_value_show fuel mmio_cdev attr buf w
       = Some (Z.of_nat (String.length text), text, w')
    /\ simple_strtoul a text = (value, Z.of_nat (String.length text) - 1)
    /\ char_at text (Z.of_nat (String.length text) - 1) = "010"%char.
Proof.
  intros Hfind Hflags Hm Hfuel.
  unfold mmio_value_show. rewrite Hfind.
  destruct (Z.eqb_spec (Z.land (entry_flags entry) MMIO_ENTRY_READ) 0);
    [contradiction |].
  rewrite mmio_get_value_spec by assumption.
  set (value := Z.land (register_value mmio_cdev w) (entry_mask entry)
                  ≫ trailing_zero_count (entry_mask entry)).
  assert (Hv : 0 <= value < 2 ^ 32) by (apply get_value_range; lia).
  destruct (sprintf_digits value Hv) as [Hpre Hlen].
  destruct (sprintf_parses_back value Hv) as [Hval _].
  eexists value, _, _. split; [reflexivity |]. split; [reflexivity |].
  split.
  - rewrite simple_strtoul_eq, Hval, Hpre, Hlen. f_equal.
    + unfold ulong. apply wrap_small. split; [lia |].
      apply Z.lt_le_trans with (2 ^ 32); [lia |].
      apply Z.pow_le_mono_r; destruct a; simpl; lia.
    + lia.
  - unfold char_at. rewrite Hlen.
    replace (Z.to_nat (Z.of_nat (S (String.length (put_dec 10 value EmptyString))) - 1))
      with (0 + String.length (put_dec 10 value EmptyString))%nat by lia.
    unfold sprintf_u_nl.
    rewrite (put_dec_app 10 value (String "010" EmptyString)).
    rewrite <- (append_correct2 (put_dec 10 value EmptyString)
                  (String "010" EmptyString) 0).
    reflexivity.
Qed.

Lemma value_show_parses_back_witness :
  exists value text w',
    mmio_get_value 31 (Some (sample_bank 4 [field "speed" 0xFF00]))
      (Some (field "speed" 0xFF00)) (world_with 4096 0xABCD1234)
    = Some (value, w')
    /\ mmio_value_show 31 (sample_bank 4 [field "speed" 0xFF00])
         (entry_attr (populate_attr (field "speed" 0xFF00))) EmptyString
         (world_with 4096 0xABCD1234)
       = Some (Z.of_nat (String.length text), text, w')
    /\ simple_strtoul ILP32 text = (value, Z.of_nat (String.length text) - 1)
    /\ char_at text (Z.of_nat (String.length text) - 1) = "010"%char.
Proof.
  apply (value_show_parses_back ILP32 31 (sample_bank 4 [field "speed" 0xFF00])
           (entry_attr (populate_attr (field "speed" 0xFF00)))
           (field "speed" 0xFF00) EmptyString (world_with 4096 0xABCD1234)).
  - reflexivity.
  - vm_compute. discriminate.
  - simpl. lia.
  - lia.
Defined.

(** ** Show, store and the register *)

(** A value that fits its field is read back from the merged register. *)
Lemma field_read_back (k old m v : Z) :
  0 <= k -> 0 < m < 2 ^ k ->
  Z.land (v ≪ trailing_zero_count m) m = v ≪ trailing_zero_count m ->
  Z.land (wrap k (Z.lor (Z.land old (Z.lnot m)) (v ≪ trailing_zero_count m))) m
    ≫ trailing_zero_count m = v.
Proof.
  intros Hk Hm Hfit. pose proof (trailing_zero_count_nonneg m) as Htz.
  set (tz := trailing_zero_count m) in *.
  apply Z.bits_inj'. intros i Hi.
  rewrite Z.shiftr_spec, Z.land_spec, testbit_wrap, Z.lor_spec, Z.land_spec,
    Z.lnot_spec by lia.
  assert (Hvi : Z.testbit (v ≪ tz) (i + tz) = Z.testbit v i).
  { rewrite Z.shiftl_spec by lia. f_equal. lia. }
  rewrite Hvi.
  destruct (Z.testbit m (i + tz)) eqn:Hbit.
  - destruct (Z.ltb_spec (i + tz) k) as [Hin | Hhigh].
    + simpl. now rewrite andb_false_r, andb_true_r.
    + rewrite (testbit_high k m (i + tz)) in Hbit by lia. discriminate.
  - rewrite andb_false_r. rewrite <- Hvi, <- Hfit, Z.land_spec, Hbit.
    now rewrite andb_false_r.
Qed.

(** Writing a field's own content back changes nothing. *)
Lemma set_back (a : abi) (fuel : nat) (parent : mmio_classdev)
    (entry : mmio_entry) (w w1 : world) :
  0 < entry_mask entry < 2 ^ 32 -> (31 <= fuel)%nat ->
  register_value parent w1 = register_value parent w ->
  exists w2,
    mmio_set_value a fuel (Some parent) (Some entry)
      (Z.land (register_value parent w) (entry_mask entry)
         ≫ trailing_zero_count (entry_mask entry)) w1 = Some (0, w2)
    /\ register_value parent w2 = register_value parent w.
Proof.
  intros Hm Hfuel Hsame.
  set (m := entry_mask entry) in *.
  pose proof (field_back m (register_value parent w) ltac:(lia)) as Hback.
  rewrite mmio_set_value_fits;
    [| fold m; lia | fold m; rewrite Hback, <- Z.land_assoc, Z.land_diag; reflexivity
     | assumption].
  eexists. split; [reflexivity |].
  rewrite register_value_after_write, Hsame. fold m. rewrite Hback.
  apply merge_back; [width_cases parent | apply register_value_range].
Qed.

(** X7: storing what [mmio_value_show] has just written is accepted whole and
    leaves the register as it was. *)
Theorem show_then_store_restores (a : abi) (fuel : nat)
    (mmio_cdev : mmio_classdev) (attr : device_attribute) (entry : mmio_entry)
    (buf : string) (w : world) :
  find_entry (default [] (cdev_entries mmio_cdev)) (attr_name attr) = Some entry ->
  Z.land (entry_flags entry) MMIO_ENTRY_READ <> 0 ->
  Z.land (entry_flags entry) MMIO_ENTRY_WRITE <> 0 ->
  0 < entry_mask entry < 2 ^ 32 -> (31 <= fuel)%nat ->
  exists n text w1 w2,
    mmio_value_show fuel mmio_cdev attr buf w = Some (n, text, w1)
    /\ mmio_value_store a fuel mmio_cdev attr text n w1 = Some (n, w2)
    /\ register_value mmio_cdev w2 = register_value mmio_cdev w.
Proof.
  intros Hfind Hread Hwrite Hm Hfuel.
  unfold mmio_value_show. rewrite Hfind.
  destruct (Z.eqb_spec (Z.land (entry_flags entry) MMIO_ENTRY_READ) 0);
    [contradiction |].
  rewrite mmio_get_value_spec by assumption.
  set (value := Z.land (register_value mmio_cdev w) (entry_mask entry)
                  ≫ trailing_zero_count (entry_mask entry)).
  set (w1 := up_read _).
  assert (Hv : 0 <= value < 2 ^ 32) by (apply get_value_range; lia).
  destruct (sprintf_parses_back value Hv) as [Hval Hlen].
  destruct (set_back a fuel mmio_cdev entry w w1 Hm Hfuel
              (register_value_after_get mmio_cdev w)) as (w2 & Hset & Hreg).
  eexists _, _, w1, w2. split; [reflexivity |]. split; [| exact Hreg].
  rewrite (mmio_value_store_eq a fuel mmio_cdev attr entry) by assumption.
  rewrite Hlen, Z.eqb_refl, Hval.
  replace (ulong a value) with value.
  - fold value in Hset. rewrite Hset. reflexivity.
  - symmetry. unfold ulong. apply wrap_small. split; [lia |].
    apply Z.lt_le_trans with (2 ^ 32); [lia |].
    apply Z.pow_le_mono_r; destruct a; simpl; lia.
Qed.

Lemma show_then_store_restores_witness :
  exists n text w1 w2,
    mmio_value_show 31 (sample_bank 4 [field "speed" 0xFF00])
      (entry_attr (populate_attr (field "speed" 0xFF00))) EmptyString
      (world_with 4096 0xABCD1234) = Some (n, text, w1)
    /\ mmio_value_store LP64 31 (sample_bank 4 [field "speed" 0xFF00])
         (entry_attr (populate_attr (field "speed" 0xFF00))) text n w1
       = Some (n, w2)
    /\ register_value (sample_bank 4 [field "speed" 0xFF00]) w2
       = register_value (sample_bank 4 [field "speed" 0xFF00])
           (world_with 4096 0xABCD1234).
Proof.
  apply (show_then_store_restores LP64 31 (sample_bank 4 [field "speed" 0xFF00])
           (entry_attr (populate_attr (field "speed" 0xFF00)))
           (field "speed" 0xFF00) EmptyString (world_with 4096 0xABCD1234)).
  - reflexivity.
  - vm_compute. discriminate.
  - vm_compute. discriminate.
  - simpl. lia.
  - lia.
Defined.

(** X8: an input without a digit, empty or one white-space character, is
    taken as the number 0: the handler hands 0 to [mmio_set_value]. *)
Theorem store_blank_writes_zero (a : abi) (fuel : nat)
    (mmio_cdev : mmio_classdev) (attr : device_attribute) (entry : mmio_entry)
    (buf : string) (w : world) :
  find_entry (default [] (cdev_entries mmio_cdev)) (attr_name attr) = Some entry ->
  Z.land (entry_flags entry) MMIO_ENTRY_WRITE <> 0 ->
  buf = EmptyString \/ (exists c, isspace c = true /\ buf = String c EmptyString) ->
  mmio_value_store a fuel mmio_cdev attr buf (Z.of_nat (String.length buf)) w
  = store_result (Z.of_nat (String.length buf))
      (mmio_set_value a fuel (Some mmio_cdev) (Some entry) 0 w).
Proof.
  intros Hfind Hwrite Hblank.
  rewrite (mmio_value_store_eq a fuel mmio_cdev attr entry) by assumption.
  assert (Hpre : digits_prefix buf = EmptyString).
  { destruct Hblank as [-> | (c & Hsp & ->)]; [reflexivity |].
    simpl. now rewrite (space_is_no_digit c Hsp). }
  assert (Hlen : consumed_length buf = Z.of_nat (String.length buf)).
  { apply consumed_all_iff. exists EmptyString, buf.
    split; [reflexivity |]. split; [reflexivity |].
    destruct Hblank as [-> | Hsp]; [now left | now right]. }
  rewrite Hlen, Z.eqb_refl, Hpre. reflexivity.
Qed.

Lemma store_blank_writes_zero_witness :
  mmio_value_store ILP32 31 (sample_bank 4 [field "speed" 0xFF00])
    (entry_attr (populate_attr (field "speed" 0xFF00)))
    (String "010" EmptyString) (Z.of_nat (String.length (String "010" EmptyString)))
    (world_with 4096 0xABCD1234)
  = store_result (Z.of_nat (String.length (String "010" EmptyString)))
      (mmio_set_value ILP32 31 (Some (sample_bank 4 [field "speed" 0xFF00]))
         (Some (field "speed" 0xFF00)) 0 (world_with 4096 0xABCD1234)).
Proof.
  apply (store_blank_writes_zero ILP32 31 (sample_bank 4 [field "speed" 0xFF00])
           (entry_attr (populate_attr (field "speed" 0xFF00)))
           (field "speed" 0xFF00) (String "010" EmptyString)
           (world_with 4096 0xABCD1234)).
  - reflexivity.
  - vm_compute. discriminate.
  - right. exists "010"%char. split; reflexivity.
Defined.

(** X9: a decimal number, with or without one white-space character after it,
    written to a writable field whose mask lies inside the register: when
    the number (modulo the range of [unsigned long]) fits the field the
    handler returns the input's length and the field then reads the
    number; when its shifted form is not inside the mask the handler
    returns [-EOVERFLOW] and no register changes. *)
Theorem store_decimal_number (a : abi) (fuel : nat)
    (mmio_cdev : mmio_classdev) (attr : device_attribute) (entry : mmio_entry)
    (d t : string) (w : world) :
  find_entry (default [] (cdev_entries mmio_cdev)) (attr_name attr) = Some entry ->
  Z.land (entry_flags entry) MMIO_ENTRY_WRITE <> 0 ->
  0 < entry_mask entry < 2 ^ (8 * access_width mmio_cdev) ->
  all_digits d = true ->
  t = EmptyString \/ (exists c, isspace c = true /\ t = String c EmptyString) ->
  (31 <= fuel)%nat ->
  let m := entry_mask entry in
  let v := ulong a (decimal_value d) in
  let size := Z.of_nat (String.length (d ++ t)) in
  (Z.land (v ≪ trailing_zero_count m) m = v ≪ trailing_zero_count m ->
   exists w1 w2,
     mmio_value_store a fuel mmio_cdev attr (d ++ t) size w = Some (size, w1)
     /\ mmio_get_value fuel (Some mmio_cdev) (Some entry) w1 = Some (v, w2))
  /\ (Z.land (ulong a (v ≪ trailing_zero_count m)) m
        <> ulong a (v ≪ trailing_zero_count m) ->
      exists w1,
        mmio_value_store a fuel mmio_cdev attr (d ++ t) size w
          = Some (- EOVERFLOW, w1)
        /\ io w1 = io w).
Proof.
  intros Hfind Hwrite Hm Hd Ht Hfuel m v size.
  assert (Hw : 0 <= 8 * access_width mmio_cdev <= 32) by width_cases mmio_cdev.
  assert (Hm32 : 0 < m < 2 ^ 32).
  { split; [unfold m; lia |].
    apply Z.lt_le_trans with (2 ^ (8 * access_width mmio_cdev)); [unfold m; lia |].
    apply Z.pow_le_mono_r; lia. }
  assert (Hpre : digits_prefix (d ++ t) = d).
  { apply digits_prefix_app; [assumption |].
    destruct Ht as [-> | (c & Hsp & ->)]; [now left | right].
    exists c, EmptyString. split; [reflexivity | now apply space_is_no_digit]. }
  assert (Hlen : consumed_length (d ++ t) = size).
  { apply consumed_all_iff. exists d, t. auto. }
  assert (Hvr : 0 <= v < 2 ^ BITS_PER_LONG a)
    by (apply wrap_range; destruct a; simpl; lia).
  rewrite (mmio_value_store_eq a fuel mmio_cdev attr entry) by assumption.
  rewrite Hlen, Z.eqb_refl, Hpre. fold v. split.
  - intros Hfit.
    rewrite mmio_set_value_fits by (try assumption; fold m; lia).
    eexists _, _. split; [reflexivity |].
    rewrite mmio_get_value_spec, register_value_after_write by assumption.
    fold m. now rewrite field_read_back by (try assumption; lia).
  - intros Hover.
    rewrite mmio_set_value_spec; [| fold m; lia | assumption | left; fold m; lia | assumption].
    cbv zeta. fold m.
    destruct (Z.eqb_spec (Z.land (ulong a (v ≪ trailing_zero_count m)) m)
                (ulong a (v ≪ trailing_zero_count m))); [contradiction |].
    eexists. split; reflexivity.
Qed.

Lemma store_decimal_number_witness :
  exists w1 w2,
    mmio_value_store ILP32 31 (sample_bank 4 [field "speed" 0xFF00])
      (entry_attr (populate_attr (field "speed" 0xFF00)))
      ("42" ++ String "010" EmptyString) 3 (world_with 4096 0xABCD1234)
    = Some (3, w1)
    /\ mmio_get_value 31 (Some (sample_bank 4 [field "speed" 0xFF00]))
         (Some (field "speed" 0xFF00)) w1 = Some (42, w2).
Proof.
  apply (proj1 (store_decimal_number ILP32 31
                  (sample_bank 4 [field "speed" 0xFF00])
                  (entry_attr (populate_attr (field "speed" 0xFF00)))
                  (field "speed" 0xFF00) "42" (String "010" EmptyString)
                  (world_with 4096 0xABCD1234) eq_refl
                  ltac:(vm_compute; discriminate)
                  ltac:(split; reflexivity) eq_refl
                  ltac:(right; exists "010"%char; split; reflexivity)
                  ltac:(lia))).
  reflexivity.
Defined.

(** ** Registration under any host *)

Lemma hw_filter_emit (e : event) (w : world) :
  is_hw_access e = false ->
  filter is_hw_access (trace (emit e w)) = filter is_hw_access (trace w).
Proof.
  intros He. simpl. rewrite filter_app, filter_cons_False, filter_nil, app_nil_r;
    [reflexivity |].
  rewrite He. simpl. tauto.
Qed.

Lemma create_files_inv (h : host) (dev : Z) (es : list mmio_entry) :
  forall (i : nat) (w : world),
    exists x es' w',
      create_files h dev i es w = (x, es', w')
      /\ loop_left dev i es w x es' w'.
Proof.
  induction es as [| e es IH]; intros i w.
  - eexists _, _, _. split; [reflexivity |].
    unfold loop_left, exposures. simpl. now rewrite app_nil_r.
  - simpl create_files.
    destruct (Z.eqb_spec (entry_mask e) 0) as [Hz | Hnz].
    + destruct (IH (S i) (printk (LogSkipEntry i (entry_name e)) w))
        as (x & es' & w' & Hrun & Hio & Hlist & Hhw & Hx).
      rewrite Hrun. eexists _, _, _. split; [reflexivity |].
      split; [exact Hio |]. split; [exact Hlist |].
      split; [rewrite Hhw; now apply hw_filter_emit |].
      destruct x as [| j ret].
      * destruct Hx as [Hsys ->]. rewrite exposures_skip by assumption.
        split; [exact Hsys |]. rewrite fmap_cons. unfold passed at 2.
        rewrite Hz. reflexivity.
      * destruct Hx as (Hret & k & -> & Hk & Hsys & ->).
        split; [exact Hret |]. exists (S k).
        split; [lia |]. split; [simpl; lia |].
        change (take (S k) (e :: es)) with (e :: take k es).
        rewrite exposures_skip by assumption. split; [exact Hsys |].
        change (take (S (S k)) (e :: es)) with (e :: take (S k) es).
        rewrite fmap_cons. unfold passed at 2. rewrite Hz. reflexivity.
    + unfold device_create_file. simpl attr_name.
      set (ret := host_create_file h (sysfs w) dev (entry_name e)).
      destruct (Z.eqb_spec ret 0) as [Hr | Hr].
      * simpl negb. cbv iota.
        match goal with
        | |- context [create_files h dev (S i) es ?w1] =>
            destruct (IH (S i) w1)
              as (x & es' & w' & Hrun & Hio & Hlist & Hhw & Hx)
        end.
        rewrite Hrun. eexists _, _, _. split; [reflexivity |].
        split; [exact Hio |]. split; [exact Hlist |].
        split; [rewrite Hhw, hw_filter_emit by reflexivity; reflexivity |].
        simpl sysfs in Hx.
        destruct x as [| j ret'].
        -- destruct Hx as [Hsys ->]. rewrite exposures_bind by assumption.
           split; [now rewrite Hsys, <- app_assoc |].
           rewrite fmap_cons. unfold passed at 2.
           destruct (Z.eqb_spec (entry_mask e) 0); [contradiction | reflexivity].
        -- destruct Hx as (Hret & k & -> & Hk & Hsys & ->).
           split; [exact Hret |]. exists (S k).
           split; [lia |]. split; [simpl; lia |].
           change (take (S k) (e :: es)) with (e :: take k es).
           rewrite exposures_bind by assumption.
           split; [now rewrite Hsys, <- app_assoc |].
           change (take (S (S k)) (e :: es)) with (e :: take (S k) es).
           rewrite fmap_cons. unfold passed at 2.
           destruct (Z.eqb_spec (entry_mask e) 0); [contradiction | reflexivity].
      * simpl negb. cbv iota.
        eexists _, _, _. split; [reflexivity |].
        split; [reflexivity |]. split; [reflexivity |]. split.
        -- unfold printk. rewrite !hw_filter_emit by reflexivity. reflexivity.
        -- split; [exact Hr |]. exists O.
           split; [lia |]. split; [simpl; lia |].
           unfold exposures. simpl. rewrite app_nil_r, drop_0.
           split; [reflexivity |]. unfold passed.
           destruct (Z.eqb_spec (entry_mask e) 0); [contradiction | reflexivity].
Qed.

Lemma removal_events_no_hw (dev : Z) (es : list mmio_entry) :
  filter is_hw_access (removal_events dev es) = [].
Proof.
  induction es as [| e es IH]; [reflexivity |].
  unfold removal_events. rewrite fmap_cons, filter_cons_False by (simpl; tauto).
  exact IH.
Qed.

(** The three ways [mmio_classdev_register] can go: the checks refuse the
    bank; the device is not created; or the binding loop is entered and
    left as [loop_left] says, followed by the insertion or by the roll
    back. *)
Lemma register_run (h : host) (parent : Z) (c : mmio_classdev) (w : world) :
  mmio_classdev_register h parent c w = Some (- EINVAL, c, w)
  \/ (exists es name err,
        cdev_entries c = Some es /\ cdev_name c = Some name
        /\ host_device_create h parent name = NotCreated err
        /\ mmio_classdev_register h parent c w
           = Some (err, with_dev c (ErrPtr err), emit (EvDeviceCreate parent name) w))
  \/ (exists es name dev x es' w2,
        cdev_entries c = Some es /\ cdev_name c = Some name
        /\ host_device_create h parent name = Created dev
        /\ create_files h dev O es
             (emit EvInitRwsem (emit (EvDeviceCreate parent name) w)) = (x, es', w2)
        /\ loop_left dev O es
             (emit EvInitRwsem (emit (EvDeviceCreate parent name) w)) x es' w2
        /\ mmio_classdev_register h parent c w
           = match x with
             | RanToEnd =>
                 Some (0, with_entries (with_dev c (Dev dev)) es',
                       printk (LogRegistered name (cdev_base c) (cdev_offset c)
                                 (cdev_size c))
                         (emit EvListUnlock
                            (list_add_tail (with_entries (with_dev c (Dev dev)) es')
                               (emit EvListLock w2))))
             | Failed i r =>
                 match remove_files dev es' i w2 with
                 | Some w3 => Some (r, with_entries (with_dev c (Dev dev)) es', w3)
                 | None => None
                 end
             end).
Proof.
  unfold mmio_classdev_register.
  destruct (cdev_entries c) as [es |] eqn:Hes; [| left; reflexivity].
  destruct (cdev_name c) as [name |] eqn:Hname; [| left; reflexivity].
  destruct (cdev_base c =? 0); [left; reflexivity |].
  destruct (negb (cdev_size c =? 1) && negb (cdev_size c =? 2)
            && negb (cdev_size c =? 4)); [left; reflexivity |].
  destruct ((cdev_size c =? 2) && negb (addr_bits c 1 =? 0)); [left; reflexivity |].
  destruct ((cdev_size c =? 4) && negb (addr_bits c 3 =? 0)); [left; reflexivity |].
  unfold device_create.
  destruct (host_device_create h parent name) as [dev | err] eqn:Hdev; simpl.
  - right. right.
    destruct (create_files_inv h dev es O
                (emit EvInitRwsem (emit (EvDeviceCreate parent name) w)))
      as (x & es' & w2 & Hrun & Hleft).
    exists es, name, dev, x, es', w2.
    split; [reflexivity |]. split; [reflexivity |]. split; [exact Hdev |].
    split; [exact Hrun |]. split; [exact Hleft |].
    unfold emit in Hrun. simpl in Hrun. unfold emit. simpl. rewrite Hrun.
    destruct x; reflexivity.
  - right. left. exists es, name, err. auto.
Qed.

(** The same for a call that returns. *)
Lemma register_cases (h : host) (parent : Z) (c : mmio_classdev) (w : world)
    (ret : Z) (c' : mmio_classdev) (w' : world) :
  mmio_classdev_register h parent c w = Some (ret, c', w') ->
  (ret = - EINVAL /\ c' = c /\ w' = w)
  \/ (exists es name err,
        cdev_entries c = Some es /\ cdev_name c = Some name
        /\ host_device_create h parent name = NotCreated err
        /\ ret = err /\ c' = with_dev c (ErrPtr err)
        /\ w' = emit (EvDeviceCreate parent name) w)
  \/ (exists es name dev x es' w2,
        cdev_entries c = Some es /\ cdev_name c = Some name
        /\ host_device_create h parent name = Created dev
        /\ loop_left dev O es
             (emit EvInitRwsem (emit (EvDeviceCreate parent name) w)) x es' w2
        /\ c' = with_entries (with_dev c (Dev dev)) es'
        /\ match x with
           | RanToEnd =>
               ret = 0
               /\ w' = printk (LogRegistered name (cdev_base c) (cdev_offset c)
                                 (cdev_size c))
                         (emit EvListUnlock (list_add_tail c' (emit EvListLock w2)))
           | Failed i r => ret = r /\ remove_files dev es' i w2 = Some w'
           end).
Proof.
  intros Hreg.
  destruct (register_run h parent c w) as [Hrun | [Hnodev | Hloop]].
  - left. rewrite Hrun in Hreg. injection Hreg as <- <- <-. auto.
  - right. left. destruct Hnodev as (es & name & err & Hes & Hname & Hdev & Hrun).
    rewrite Hrun in Hreg. injection Hreg as <- <- <-.
    exists es, name, err. auto 10.
  - right. right.
    destruct Hloop as (es & name & dev & x & es' & w2 & Hes & Hname & Hdev & _
                       & Hleft & Hrun).
    rewrite Hrun in Hreg.
    exists es, name, dev, x, es', w2.
    split; [exact Hes |]. split; [exact Hname |]. split; [exact Hdev |].
    split; [exact Hleft |].
    destruct x as [| i r].
    + injection Hreg as <- <- <-. auto.
    + destruct (remove_files dev es' i w2) as [w3 |]; [| discriminate].
      injection Hreg as <- <- <-. auto.
Qed.

(** A call that has no result got as far as the roll back. *)
Lemma register_faults (h : host) (parent : Z) (c : mmio_classdev) (w : world) :
  mmio_classdev_register h parent c w = None ->
  exists es name dev i r es' w2,
    cdev_entries c = Some es /\ cdev_name c = Some name
    /\ host_device_create h parent name = Created dev
    /\ create_files h dev O es
         (emit EvInitRwsem (emit (EvDeviceCreate parent name) w))
       = (Failed i r, es', w2)
    /\ loop_left dev O es
         (emit EvInitRwsem (emit (EvDeviceCreate parent name) w))
         (Failed i r) es' w2
    /\ remove_files dev es' i w2 = None.
Proof.
  intros Hreg.
  destruct (register_run h parent c w) as [Hrun | [Hnodev | Hloop]].
  - rewrite Hrun in Hreg. discriminate.
  - destruct Hnodev as (es & name & err & _ & _ & _ & Hrun).
    rewrite Hrun in Hreg. discriminate.
  - destruct Hloop as (es & name & dev & x & es' & w2 & Hes & Hname & Hdev & Hfiles
                       & Hleft & Hrun).
    rewrite Hrun in Hreg. destruct x as [| i r]; [discriminate |].
    exists es, name, dev, i, r, es', w2.
    destruct (remove_files dev es' i w2); [discriminate | auto 10].
Qed.

(** X10: registration never reads or writes a register, whatever the bank and
    whatever the host answers: not in a call that returns, and not, up to
    the roll back, in one that has no result there. *)
Theorem register_never_touches_hardware (h : host) (parent : Z)
    (c : mmio_classdev) (w : world) :
  (forall ret c' w',
     mmio_classdev_register h parent c w = Some (ret, c', w') ->
     io w' = io w
     /\ filter is_hw_access (trace w') = filter is_hw_access (trace w))
  /\ (mmio_classdev_register h parent c w = None ->
      exists es name dev i r es' w2,
        cdev_entries c = Some es /\ cdev_name c = Some name
        /\ create_files h dev O es
             (emit EvInitRwsem (emit (EvDeviceCreate parent name) w))
           = (Failed i r, es', w2)
        /\ remove_files dev es' i w2 = None
        /\ io w2 = io w
        /\ filter is_hw_access (trace w2) = filter is_hw_access (trace w)).
Proof.
  split.
  - intros ret c' w' Hreg. apply register_cases in Hreg.
    destruct Hreg as [(_ & _ & ->) | [Hnodev | Hloop]]; [auto | |].
    + destruct Hnodev as (es & name & err & _ & _ & _ & _ & _ & ->).
      split; [reflexivity | now apply hw_filter_emit].
    + destruct Hloop as (es & name & dev & x & es' & w2 & _ & _ & _ & Hleft & _ & Hx).
      destruct Hleft as (Hio & _ & Hhw & _).
      rewrite !hw_filter_emit in Hhw by reflexivity. simpl in Hio.
      destruct x as [| i r].
      * destruct Hx as [_ ->]. split; [exact Hio |].
        unfold printk. rewrite !hw_filter_emit by reflexivity.
        unfold list_add_tail. simpl trace. rewrite <- Hhw.
        now apply hw_filter_emit.
      * destruct Hx as [_ Hrun].
        apply remove_files_inv in Hrun as (_ & _ & Hio2 & _ & Htrace & _).
        split; [now rewrite Hio2 |].
        now rewrite Htrace, filter_app, removal_events_no_hw, app_nil_r.
  - intros Hreg. apply register_faults in Hreg
      as (es & name & dev & i & r & es' & w2 & Hes & Hname & _ & Hfiles & Hleft & Hrun).
    destruct Hleft as (Hio & _ & Hhw & _).
    rewrite !hw_filter_emit in Hhw by reflexivity. simpl in Hio.
    exists es, name, dev, i, r, es', w2. auto 10.
Qed.

Lemma register_never_touches_hardware_witness :
  exists ret c' w',
    mmio_classdev_register (refusing_host "speed" (-17)) 1
      (sample_bank 4 [field "run" 1; field "speed" 0xFF00])
      (world_with 4096 0xABCD1234) = Some (ret, c', w')
    /\ io w' = io (world_with 4096 0xABCD1234)
    /\ filter is_hw_access (trace w') = [].
Proof.
  destruct (mmio_classdev_register (refusing_host "speed" (-17)) 1
              (sample_bank 4 [field "run" 1; field "speed" 0xFF00])
              (world_with 4096 0xABCD1234))
    as [[[ret c'] w'] |] eqn:Hreg; [| vm_compute in Hreg; discriminate Hreg].
  exists ret, c', w'. split; [reflexivity |].
  pose proof (register_never_touches_hardware (refusing_host "speed" (-17)) 1
                (sample_bank 4 [field "run" 1; field "speed" 0xFF00])
                (world_with 4096 0xABCD1234)) as [Hret _].
  rewrite Hreg in Hret. exact (Hret ret c' w' eq_refl).
Defined.

Lemma fmap_passed_part {B : Type} (f : mmio_entry -> B) (l : list mmio_entry)
    (n : nat) :
  (forall e, f (passed e) = f e) ->
  f <$> ((passed <$> take n l) ++ drop n l) = f <$> l.
Proof.
  intros Hf. rewrite fmap_app, fmap_passed, <- fmap_app, take_drop by assumption.
  reflexivity.
Qed.

(** X11: registration fills in [dev] and the attributes and nothing else: the
    bank keeps its name, size, offset and base, and its entries keep their
    names, masks and flags, in order, on every path; so do the entries as
    they stand when a roll back ends without a result. *)
Theorem register_keeps_bank_data (h : host) (parent : Z)
    (c : mmio_classdev) (w : world) :
  (forall ret c' w',
     mmio_classdev_register h parent c w = Some (ret, c', w') ->
     cdev_name c' = cdev_name c /\ cdev_size c' = cdev_size c
     /\ cdev_offset c' = cdev_offset c /\ cdev_base c' = cdev_base c
     /\ (fun es : list mmio_entry => entry_name <$> es) <$> cdev_entries c'
        = (fun es : list mmio_entry => entry_name <$> es) <$> cdev_entries c
     /\ (fun es : list mmio_entry => entry_mask <$> es) <$> cdev_entries c'
        = (fun es : list mmio_entry => entry_mask <$> es) <$> cdev_entries c
     /\ (fun es : list mmio_entry => entry_flags <$> es) <$> cdev_entries c'
        = (fun es : list mmio_entry => entry_flags <$> es) <$> cdev_entries c)
  /\ (mmio_classdev_register h parent c w = None ->
      exists es name dev i r es' w2,
        cdev_entries c = Some es /\ cdev_name c = Some name
        /\ create_files h dev O es
             (emit EvInitRwsem (emit (EvDeviceCreate parent name) w))
           = (Failed i r, es', w2)
        /\ remove_files dev es' i w2 = None
        /\ entry_name <$> es' = entry_name <$> es
        /\ entry_mask <$> es' = entry_mask <$> es
        /\ entry_flags <$> es' = entry_flags <$> es).
Proof.
  split.
  - intros ret c' w' Hreg. apply register_cases in Hreg.
    destruct Hreg as [(_ & -> & _) | [Hnodev | Hloop]]; [auto 10 | |].
    + destruct Hnodev as (es & name & err & _ & _ & _ & _ & -> & _).
      simpl. auto 10.
    + destruct Hloop as (es & name & dev & x & es' & w2 & Hes & _ & _ & Hleft & -> & _).
      destruct Hleft as (_ & _ & _ & Hx). simpl. rewrite Hes. simpl.
      assert (Hes' : es' = passed <$> es
                     \/ exists k, es' = (passed <$> take (S k) es) ++ drop (S k) es).
      { destruct x as [| i r]; [left; apply Hx |].
        destruct Hx as (_ & k & _ & _ & _ & ->). right. now exists k. }
      repeat split; try reflexivity;
        (destruct Hes' as [-> | [k ->]];
         [rewrite fmap_passed by apply passed_keeps
         | rewrite fmap_passed_part by apply passed_keeps]; reflexivity).
  - intros Hreg. apply register_faults in Hreg
      as (es & name & dev & i & r & es' & w2 & Hes & Hname & _ & Hfiles & Hleft & Hrun).
    destruct Hleft as (_ & _ & _ & _ & k & _ & _ & _ & ->).
    exists es, name, dev, i, r, ((passed <$> take (S k) es) ++ drop (S k) es), w2.
    split; [exact Hes |]. split; [exact Hname |]. split; [exact Hfiles |].
    split; [exact Hrun |].
    repeat split; rewrite fmap_passed_part by apply passed_keeps; reflexivity.
Qed.

Lemma register_keeps_bank_data_witness :
  exists ret c' w',
    mmio_classdev_register (refusing_host "speed" (-17)) 1
      (sample_bank 4 [field "run" 1; field "speed" 0xFF00]) empty_world
    = Some (ret, c', w')
    /\ cdev_name c' = Some "ctrl"%string /\ cdev_size c' = 4
    /\ (fun es : list mmio_entry => entry_mask <$> es) <$> cdev_entries c'
       = Some [1; 0xFF00].
Proof.
  destruct (mmio_classdev_register (refusing_host "speed" (-17)) 1
              (sample_bank 4 [field "run" 1; field "speed" 0xFF00]) empty_world)
    as [[[ret c'] w'] |] eqn:Hreg; [| vm_compute in Hreg; discriminate Hreg].
  exists ret, c', w'. split; [reflexivity |].
  pose proof (register_keeps_bank_data (refusing_host "speed" (-17)) 1
                (sample_bank 4 [field "run" 1; field "speed" 0xFF00]) empty_world)
    as [Hret _].
  rewrite Hreg in Hret.
  destruct (Hret ret c' w' eq_refl) as (Hname & Hsize & _ & _ & _ & Hmasks & _).
  split; [exact Hname |]. split; [exact Hsize | exact Hmasks].
Defined.

(** A roll back over the entries before [k] that returns leaves no file
    that the loop had added. *)
Lemma rollback_clears (dev : Z) (es : list mmio_entry) (k : nat)
    (base : list (Z * string)) (w2 w3 : world) (f : Z * string) :
  (k < length es)%nat ->
  sysfs w2 = base ++ exposures dev (take k es) ->
  remove_files dev ((passed <$> take (S k) es) ++ drop (S k) es) k w2 = Some w3 ->
  f ∈ sysfs w3 ->
  f ∈ base.
Proof.
  intros Hk Hsys Hrun Hf.
  apply remove_files_inv in Hrun as (_ & _ & _ & _ & _ & Hsub & Hgone).
  pose proof (Hsub f Hf) as Hin.
  rewrite Hsys in Hin. apply elem_of_app in Hin as [Hin | Hin]; [exact Hin |].
  exfalso. apply exposures_elem in Hin as (e & -> & Hm & He).
  revert Hf. apply (Hgone (passed e)).
  - rewrite take_passed by assumption. now apply list_elem_of_fmap_2.
  - now apply passed_attr_name.
Qed.

(** What a registration that returned 0 has done, on a host whose
    [device_create] fails with non-zero codes only. *)
Lemma register_ok (h : host) (parent : Z) (c : mmio_classdev) (w : world)
    (c' : mmio_classdev) (w' : world) :
  (forall name err, host_device_create h parent name = NotCreated err -> err <> 0) ->
  mmio_classdev_register h parent c w = Some (0, c', w') ->
  exists es dev,
    cdev_entries c = Some es
    /\ c' = with_entries (with_dev c (Dev dev)) (passed <$> es)
    /\ sysfs w' = sysfs w ++ exposures dev es
    /\ mmio_list w' = mmio_list w ++ [c']
    /\ io w' = io w.
Proof.
  intros Herr Hreg. apply register_cases in Hreg.
  destruct Hreg as [(Hret & _) | [Hnodev | Hloop]].
  - discriminate.
  - destruct Hnodev as (es & name & err & _ & _ & Hdev & Hret & _).
    exfalso. apply (Herr name err Hdev). now symmetry.
  - destruct Hloop as (es & name & dev & x & es' & w2 & Hes & _ & _ & Hleft & Hc & Hx).
    destruct Hleft as (Hio & Hlist & _ & Hshape).
    destruct x as [| i r].
    + destruct Hshape as [Hsys ->]. destruct Hx as [_ ->].
      exists es, dev. repeat split; try assumption.
      simpl. now rewrite Hlist.
    + destruct Hshape as (Hr & _). destruct Hx as [<- _]. contradiction.
Qed.

(** X12: registration is all or nothing.  On a host whose [device_create] fails
    with non-zero codes only, a return of 0 means that the bank is the new
    last element of [mmio_list] and its files are in place; any other
    return means that [mmio_list] is as it was and no new file is left. *)
Theorem register_all_or_nothing (h : host) (parent : Z) (c : mmio_classdev)
    (w : world) (ret : Z) (c' : mmio_classdev) (w' : world) :
  (forall name err, host_device_create h parent name = NotCreated err -> err <> 0) ->
  mmio_classdev_register h parent c w = Some (ret, c', w') ->
  (ret = 0 ->
   mmio_list w' = mmio_list w ++ [c']
   /\ exists es dev,
        cdev_entries c = Some es /\ cdev_dev c' = Dev dev
        /\ sysfs w' = sysfs w ++ exposures dev es)
  /\ (ret <> 0 ->
      mmio_list w' = mmio_list w /\ forall f, f ∈ sysfs w' -> f ∈ sysfs w).
Proof.
  intros Herr Hreg. split.
  - intros ->. destruct (register_ok h parent c w c' w' Herr Hreg)
      as (es & dev & Hes & Hc & Hsys & Hlist & _).
    split; [exact Hlist |]. exists es, dev. rewrite Hc. auto.
  - intros Hret. apply register_cases in Hreg.
    destruct Hreg as [(_ & _ & ->) | [Hnodev | Hloop]]; [auto | |].
    + destruct Hnodev as (es & name & err & _ & _ & _ & _ & _ & ->). auto.
    + destruct Hloop as (es & name & dev & x & es' & w2 & _ & _ & _ & Hleft & _ & Hx).
      destruct Hleft as (_ & Hlist & _ & Hshape).
      destruct x as [| i r]; [destruct Hx as [Hzero _]; contradiction |].
      destruct Hx as [_ Hrun].
      destruct Hshape as (_ & k & -> & Hk & Hsys & ->).
      simpl in Hrun.
      pose proof (remove_files_inv _ _ _ _ _ Hrun) as (_ & _ & _ & Hlist2 & _).
      split; [now rewrite Hlist2, Hlist |].
      intros f Hf.
      now apply (rollback_clears dev es k (sysfs w) w2 w' f Hk Hsys Hrun).
Qed.

Lemma register_all_or_nothing_witness :
  exists ret c' w',
    mmio_classdev_register (refusing_host "mode" (-12)) 1
      (sample_bank 4 [field "run" 1; field "mode" 0xF0]) empty_world
    = Some (ret, c', w')
    /\ ret = -12
    /\ mmio_list w' = mmio_list empty_world
    /\ forall f, f ∈ sysfs w' -> f ∈ sysfs empty_world.
Proof.
  destruct (mmio_classdev_register (refusing_host "mode" (-12)) 1
              (sample_bank 4 [field "run" 1; field "mode" 0xF0]) empty_world)
    as [[[ret c'] w'] |] eqn:Hreg; [| vm_compute in Hreg; discriminate Hreg].
  assert (Hret : ret = -12).
  { pose proof (f_equal (fun o => (fun p : Z * mmio_classdev * world => p.1.1) <$> o)
                        Hreg) as Hfst.
    vm_compute in Hfst. now injection Hfst as <-. }
  exists ret, c', w'. split; [reflexivity |]. split; [exact Hret |].
  apply (register_all_or_nothing (refusing_host "mode" (-12)) 1
           (sample_bank 4 [field "run" 1; field "mode" 0xF0]) empty_world
           ret c' w').
  - intros name err Hcreate. discriminate Hcreate.
  - exact Hreg.
  - lia.
Defined.

(** ** Finding the entry of an attribute *)

(** X13: after a registration that returned 0 of a bank whose entry names are
    all different, the attribute of every bound entry leads the handlers
    back to that very entry. *)
Theorem registered_attributes_resolve (h : host) (parent : Z)
    (c : mmio_classdev) (w : world) (c' : mmio_classdev) (w' : world)
    (es : list mmio_entry) (e' : mmio_entry) :
  (forall name err, host_device_create h parent name = NotCreated err -> err <> 0) ->
  mmio_classdev_register h parent c w = Some (0, c', w') ->
  cdev_entries c = Some es -> NoDup (entry_name <$> es) ->
  e' ∈ default [] (cdev_entries c') -> entry_mask e' <> 0 ->
  find_entry (default [] (cdev_entries c')) (attr_name (entry_attr e')) = Some e'.
Proof.
  intros Herr Hreg Hes Hnd He' Hmask.
  destruct (register_ok h parent c w c' w' Herr Hreg)
    as (es0 & dev & Hes0 & -> & _).
  rewrite Hes in Hes0. injection Hes0 as <-. simpl in *.
  apply list_elem_of_fmap in He' as (e & -> & He).
  destruct (passed_keeps e) as (Hname & Hm & _). rewrite Hm in Hmask.
  rewrite passed_attr_name, <- Hname by assumption.
  apply find_entry_unique; [| now apply list_elem_of_fmap_2].
  now rewrite fmap_passed by apply passed_keeps.
Qed.

Lemma registered_attributes_resolve_witness :
  exists c' w',
    mmio_classdev_register willing_host 1
      (sample_bank 4 [field "run" 1; field "reserved" 0; field "speed" 0xFF00])
      empty_world = Some (0, c', w')
    /\ find_entry (default [] (cdev_entries c')) (Some "speed"%string)
       = Some (populate_attr (field "speed" 0xFF00)).
Proof.
  destruct (mmio_classdev_register willing_host 1
              (sample_bank 4 [field "run" 1; field "reserved" 0; field "speed" 0xFF00])
              empty_world)
    as [[[ret c'] w'] |] eqn:Hreg; [| vm_compute in Hreg; discriminate Hreg].
  assert (Hret : ret = 0).
  { pose proof (f_equal (fun o => (fun p : Z * mmio_classdev * world => p.1.1) <$> o)
                        Hreg) as Hfst.
    vm_compute in Hfst. now injection Hfst as <-. }
  assert (Hin : populate_attr (field "speed" 0xFF00) ∈ default [] (cdev_entries c')).
  { pose proof (f_equal (fun o => (fun p : Z * mmio_classdev * world =>
                                     default [] (cdev_entries p.1.2)) <$> o)
                        Hreg) as Hsnd.
    simpl in Hsnd. injection Hsnd as Hsnd. rewrite <- Hsnd.
    apply (bool_decide_unpack _). vm_compute. exact I. }
  subst ret. exists c', w'. split; [reflexivity |].
  apply (registered_attributes_resolve willing_host 1
           (sample_bank 4 [field "run" 1; field "reserved" 0; field "speed" 0xFF00])
           empty_world c' w'
           [field "run" 1; field "reserved" 0; field "speed" 0xFF00]
           (populate_attr (field "speed" 0xFF00))).
  - intros name err Hcreate. discriminate Hcreate.
  - exact Hreg.
  - reflexivity.
  - apply (bool_decide_unpack _). vm_compute. exact I.
  - exact Hin.
  - simpl. lia.
Defined.

(** ** Failure to create the device *)

(** X14: when [device_create] fails, its error code is what
    [mmio_classdev_register] returns; nothing but the attempt has
    happened, and the bank is left holding the error pointer in [dev]. *)
Theorem register_passes_on_device_error (h : host) (parent : Z)
    (c : mmio_classdev) (w : world) (es : list mmio_entry) (name : string)
    (err : Z) :
  cdev_entries c = Some es -> cdev_name c = Some name -> acceptable c ->
  host_device_create h parent name = NotCreated err ->
  mmio_classdev_register h parent c w
  = Some (err, with_dev c (ErrPtr err), emit (EvDeviceCreate parent name) w).
Proof.
  intros Hes Hname Hok Hdev. unfold mmio_classdev_register.
  destruct (acceptable_passes c Hok) as (-> & -> & -> & ->).
  rewrite Hes, Hname. unfold device_create. rewrite Hdev. reflexivity.
Qed.

Lemma register_passes_on_device_error_witness :
  mmio_classdev_register (mk_host (fun _ _ => NotCreated (-12)) (fun _ _ _ => 0)) 1
    (sample_bank 4 [field "run" 1]) empty_world
  = Some (-12, with_dev (sample_bank 4 [field "run" 1]) (ErrPtr (-12)),
          emit (EvDeviceCreate 1 "ctrl") empty_world).
Proof.
  apply (register_passes_on_device_error
           (mk_host (fun _ _ => NotCreated (-12)) (fun _ _ _ => 0)) 1
           (sample_bank 4 [field "run" 1]) empty_world [field "run" 1] "ctrl" (-12)).
  - reflexivity.
  - reflexivity.
  - unfold acceptable. simpl. repeat split; try lia; try discriminate.
  - reflexivity.
Defined.

(** ** Unregistration *)

Lemma filter_other_dev (dev : Z) (n : string) (l : list (Z * string)) :
  filter (fun f => f.1 <> dev) (filter (fun f => f <> (dev, n)) l)
  = filter (fun f => f.1 <> dev) l.
Proof.
  apply list_filter_filter_l. intros f Hf Heq. apply Hf. now rewrite Heq.
Qed.

Lemma filter_absent {A : Type} `{EqDecision A} (x : A) (l : list A) :
  x ∉ l -> filter (fun y => y <> x) l = l.
Proof.
  induction l as [| y l IH]; intros Hx; [reflexivity |].
  apply not_elem_of_cons in Hx as [Hne Hx].
  rewrite filter_cons_True by congruence. now rewrite IH.
Qed.

(** The first loop of [mmio_classdev_unregister], when it returns, has gone
    through the entries in order, all of them named; it leaves no file
    that an attribute of the bank names, and touches the files of no other
    device. *)
Lemma remove_all_files_inv (dev : Z) (es : list mmio_entry) :
  forall w w' : world,
    remove_all_files dev es w = Some w' ->
    (forall e, e ∈ es -> attr_name (entry_attr e) <> None)
    /\ io w' = io w
    /\ mmio_list w' = mmio_list w
    /\ trace w' = trace w ++ removal_events dev es
    /\ filter (fun f => f.1 <> dev) (sysfs w')
       = filter (fun f => f.1 <> dev) (sysfs w)
    /\ (forall f, f ∈ sysfs w' -> f ∈ sysfs w)
    /\ (forall e n, e ∈ es -> attr_name (entry_attr e) = Some n ->
                    (dev, n) ∉ sysfs w').
Proof.
  induction es as [| e es IH]; intros w w' Hrun.
  - injection Hrun as <-. simpl. rewrite app_nil_r. repeat split; auto.
    + intros e He. now apply not_elem_of_nil in He.
    + intros e n He. now apply not_elem_of_nil in He.
  - simpl in Hrun.
    destruct (device_remove_file dev (entry_attr e) w) as [w1 |] eqn:Hrem;
      [| discriminate].
    apply device_remove_file_keeps in Hrem
      as (n & Hn & Hio1 & Hlist1 & Htrace1 & Hsys1).
    apply IH in Hrun as (Hnamed & Hio & Hlist & Htrace & Hother & Hsub & Hgone).
    split.
    { intros e0 He0. apply elem_of_cons in He0 as [-> | He0];
        [now rewrite Hn | now apply Hnamed]. }
    split; [now rewrite Hio |]. split; [now rewrite Hlist |].
    split.
    { rewrite Htrace, Htrace1. unfold removal_events.
      rewrite fmap_cons, Hn. now rewrite <- app_assoc. }
    split; [rewrite Hother, Hsys1; apply filter_other_dev |].
    split.
    { intros f Hf. apply Hsub in Hf. rewrite Hsys1 in Hf.
      now apply list_elem_of_filter in Hf. }
    intros e0 n' He0 Hn'. apply elem_of_cons in He0 as [-> | He0];
      [| now apply (Hgone e0)].
    rewrite Hn in Hn'. injection Hn' as <-.
    intros Hin. apply Hsub in Hin. rewrite Hsys1 in Hin.
    apply list_elem_of_filter in Hin as [Hne _]. now apply Hne.
Qed.

(** The loop returns when every attribute of the bank has a name. *)
Lemma remove_all_files_returns (dev : Z) (es : list mmio_entry) :
  forall w : world,
    (forall e, e ∈ es -> attr_name (entry_attr e) <> None) ->
    exists w', remove_all_files dev es w = Some w'.
Proof.
  induction es as [| e es IH]; intros w Hnamed; [eexists; reflexivity |].
  simpl. unfold device_remove_file.
  destruct (attr_name (entry_attr e)) as [n |] eqn:Hn.
  - apply IH. intros e0 He0. apply Hnamed. now apply list_elem_of_further.
  - exfalso. apply (Hnamed e); [apply list_elem_of_here | assumption].
Qed.

(** The body of [mmio_classdev_unregister] on a bank with a live device,
    named attributes and a place on [mmio_list]. *)
Lemma unregister_steps (c : mmio_classdev) (w : world) (dev : Z) :
  cdev_dev c = Dev dev ->
  (forall e, e ∈ default [] (cdev_entries c) -> attr_name (entry_attr e) <> None) ->
  c ∈ mmio_list w ->
  exists w1,
    remove_all_files dev (default [] (cdev_entries c)) w = Some w1
    /\ mmio_classdev_unregister c w
       = Some (mk_world (io w1) (filter (fun f => f.1 <> dev) (sysfs w1))
                        (filter (fun x => x <> c) (mmio_list w1))
                        (trace w1 ++ [EvListLock; EvListUnlock])).
Proof.
  intros Hdev Hnamed Hin.
  destruct (remove_all_files_returns dev (default [] (cdev_entries c)) w Hnamed)
    as [w1 Hrun].
  exists w1. split; [exact Hrun |].
  unfold mmio_classdev_unregister. rewrite Hdev, Hrun.
  apply remove_all_files_inv in Hrun as (_ & _ & Hlist & _).
  unfold list_del. simpl mmio_list.
  destruct (decide (c ∈ mmio_list w1)) as [_ | Hout];
    [| exfalso; apply Hout; now rewrite Hlist].
  unfold emit. simpl. now rewrite <- app_assoc.
Qed.

(** X15: unregistering a bank with a live device, whose attributes are all
    named and which is on [mmio_list], removes its attribute files in the
    order of the entries, then the device with whatever is left in its
    directory, then the bank from [mmio_list]; the files of other devices,
    the other banks, in their order, and the registers stay as they
    are. *)
Theorem unregister_removes_bank (c : mmio_classdev) (w : world) (dev : Z) :
  cdev_dev c = Dev dev ->
  (forall e, e ∈ default [] (cdev_entries c) -> attr_name (entry_attr e) <> None) ->
  c ∈ mmio_list w ->
  exists w1 w',
    remove_all_files dev (default [] (cdev_entries c)) w = Some w1
    /\ (forall e n, e ∈ default [] (cdev_entries c) ->
          attr_name (entry_attr e) = Some n -> (dev, n) ∉ sysfs w1)
    /\ mmio_classdev_unregister c w = Some w'
    /\ io w' = io w
    /\ sysfs w' = filter (fun f => f.1 <> dev) (sysfs w)
    /\ mmio_list w' = filter (fun x => x <> c) (mmio_list w)
    /\ (forall l1 l2, mmio_list w = l1 ++ c :: l2 -> c ∉ l1 -> c ∉ l2 ->
          mmio_list w' = l1 ++ l2)
    /\ trace w' = trace w ++ removal_events dev (default [] (cdev_entries c))
                    ++ [EvListLock; EvListUnlock].
Proof.
  intros Hdev Hnamed Hin.
  destruct (unregister_steps c w dev Hdev Hnamed Hin) as (w1 & Hrun & Hun).
  destruct (remove_all_files_inv _ _ _ _ Hrun)
    as (_ & Hio & Hlist & Htrace & Hother & _ & Hgone).
  eexists w1, _. split; [exact Hrun |]. split; [exact Hgone |].
  split; [exact Hun |]. simpl.
  split; [exact Hio |]. split; [exact Hother |].
  split; [now rewrite Hlist |]. split.
  - intros l1 l2 Hsplit Hl1 Hl2. rewrite Hlist, Hsplit, filter_app.
    rewrite filter_cons_False by tauto.
    now rewrite !filter_absent by assumption.
  - rewrite Htrace. now rewrite <- !app_assoc.
Qed.

Lemma unregister_removes_bank_witness :
  let c := mk_classdev (Some "ctrl"%string) 4
             (Some [populate_attr (field "run" 1)]) 0 4096 (Dev 7) in
  let w := mk_world ∅ [(7, "run"%string); (8, "run"%string)] [c] [] in
  exists w',
    mmio_classdev_unregister c w = Some w'
    /\ sysfs w' = [(8, "run"%string)]
    /\ mmio_list w' = [].
Proof.
  cbv zeta.
  destruct (unregister_removes_bank
              (mk_classdev (Some "ctrl"%string) 4
                 (Some [populate_attr (field "run" 1)]) 0 4096 (Dev 7))
              (mk_world ∅ [(7, "run"%string); (8, "run"%string)]
                 [mk_classdev (Some "ctrl"%string) 4
                    (Some [populate_attr (field "run" 1)]) 0 4096 (Dev 7)] [])
              7 eq_refl)
    as (w1 & w' & _ & _ & Hun & _ & Hsys & Hlist & _).
  - intros e He. apply list_elem_of_singleton in He as ->. discriminate.
  - apply list_elem_of_here.
  - exists w'. split; [exact Hun |]. split.
    + rewrite Hsys. vm_compute. reflexivity.
    + rewrite Hlist. vm_compute. reflexivity.
Defined.

(** X16: a registration that returned 0, followed by the unregistration of the
    same bank, leaves the attribute files, [mmio_list] and the registers
    as they were before the two calls, provided the bank was not on the
    list, the new device's directory was empty and every zero-mask entry
    came with a named attribute (as when the bank has no zero-mask
    entry). *)
Theorem register_then_unregister (h : host) (parent : Z) (c : mmio_classdev)
    (w : world) (c' : mmio_classdev) (w1 : world) :
  (forall name err, host_device_create h parent name = NotCreated err -> err <> 0) ->
  mmio_classdev_register h parent c w = Some (0, c', w1) ->
  c' ∉ mmio_list w ->
  (forall f, f ∈ sysfs w -> Dev f.1 <> cdev_dev c') ->
  (forall e, e ∈ default [] (cdev_entries c) -> entry_mask e = 0 ->
     attr_name (entry_attr e) <> None) ->
  exists w2,
    mmio_classdev_unregister c' w1 = Some w2
    /\ sysfs w2 = sysfs w /\ mmio_list w2 = mmio_list w /\ io w2 = io w.
Proof.
  intros Herr Hreg Hfresh Hempty Hnamed.
  destruct (register_ok h parent c w c' w1 Herr Hreg)
    as (es & dev & Hes & Hc & Hsys & Hlist & Hio).
  assert (Hdev : cdev_dev c' = Dev dev) by (rewrite Hc; reflexivity).
  rewrite Hes in Hnamed. simpl in Hnamed.
  assert (Hnames : forall e, e ∈ default [] (cdev_entries c') ->
                             attr_name (entry_attr e) <> None).
  { rewrite Hc. simpl. intros e0 He0.
    apply list_elem_of_fmap in He0 as (e & -> & He).
    destruct (Z.eq_dec (entry_mask e) 0) as [Hz | Hnz].
    - rewrite passed_skipped by assumption. now apply Hnamed.
    - now rewrite passed_attr_name. }
  assert (Hon : c' ∈ mmio_list w1).
  { rewrite Hlist. apply elem_of_app. right. apply list_elem_of_here. }
  destruct (unregister_steps c' w1 dev Hdev Hnames Hon) as (w1' & Hrun & Hun).
  destruct (remove_all_files_inv _ _ _ _ Hrun)
    as (_ & Hio2 & Hlist2 & _ & Hother & _).
  eexists. split; [exact Hun |]. simpl.
  split; [| split].
  - rewrite Hother, Hsys, filter_app.
    replace (filter (fun f => f.1 <> dev) (exposures dev es)) with (@nil (Z * string)).
    + rewrite app_nil_r. clear - Hempty Hdev.
      induction (sysfs w) as [| f l IH]; [reflexivity |].
      rewrite filter_cons_True.
      * rewrite IH; [reflexivity |].
        intros g Hg. apply Hempty. now apply list_elem_of_further.
      * intros Heq. apply (Hempty f (list_elem_of_here f l)).
        now rewrite Hdev, Heq.
    + symmetry. unfold exposures.
      induction (filter (fun e => entry_mask e <> 0) es) as [| e l IH];
        [reflexivity |].
      rewrite fmap_cons, filter_cons_False by (simpl; tauto). exact IH.
  - rewrite Hlist2, Hlist, filter_app, filter_absent by assumption.
    rewrite filter_cons_False by tauto. now rewrite filter_nil, app_nil_r.
  - now rewrite Hio2.
Qed.

Lemma register_then_unregister_witness :
  exists c' w1 w2,
    mmio_classdev_register willing_host 1
      (sample_bank 4 [field "run" 1; field "speed" 0xFF00])
      empty_world = Some (0, c', w1)
    /\ mmio_classdev_unregister c' w1 = Some w2
    /\ sysfs w2 = [] /\ mmio_list w2 = [].
Proof.
  destruct (mmio_classdev_register willing_host 1
              (sample_bank 4 [field "run" 1; field "speed" 0xFF00])
              empty_world)
    as [[[ret c'] w1] |] eqn:Hreg; [| vm_compute in Hreg; discriminate Hreg].
  assert (Hret : ret = 0).
  { pose proof (f_equal (fun o => (fun p : Z * mmio_classdev * world => p.1.1) <$> o)
                        Hreg) as Hfst.
    vm_compute in Hfst. now injection Hfst as <-. }
  subst ret.
  destruct (register_then_unregister willing_host 1
              (sample_bank 4 [field "run" 1; field "speed" 0xFF00])
              empty_world c' w1) as (w2 & Hun & Hsys & Hlist & _).
  - intros name err Hcreate. discriminate Hcreate.
  - exact Hreg.
  - simpl. apply not_elem_of_nil.
  - intros f Hf. simpl in Hf. now apply not_elem_of_nil in Hf.
  - intros e He Hz. simpl in He.
    apply elem_of_cons in He as [-> | He]; [simpl in Hz; lia |].
    apply list_elem_of_singleton in He as ->. simpl in Hz. lia.
  - exists c', w1, w2. auto.
Defined.

(** A bank with a zero-mask entry whose attribute was never given a name
    registers, and its unregistration then hands that attribute to
    [device_remove_file]. *)
Example unregister_reaches_skipped_entry :
  exists c' w1,
    mmio_classdev_register willing_host 1
      (sample_bank 4 [field "run" 1; field "reserved" 0]) empty_world
    = Some (0, c', w1)
    /\ mmio_classdev_unregister c' w1 = None.
Proof. eexists _, _. split; reflexivity. Qed.
